(** * SBOM indexing pipeline of [sbom/index.go]

    A shallow embedding of package [sbom] of the docker index CLI plugin
    ([createLayerMapping], [indexImage], [IndexImage], [IndexPath],
    [indexImageAsync]) together with the properties its specification
    states about it.

    Conventions of the embedding:
    - a Go function that may panic returns an [outcome];
    - code that reads the environment or touches the file system runs in the
      monad [M], a state monad over [World] layered on [outcome];
    - a Go multi-value return [(a, b, err)] is a tuple whose pointer and
      error components are [option]s ([None] is [nil]);
    - Go maps are [gmap]s, slices are [list]s, [int]/[int64] are [Z];
    - calls to [skill.Log] are not modelled. *)

From Stdlib Require Import ZArith String Ascii.
From stdpp Require Import base option list strings gmap.

Local Open Scope string_scope.
Local Open Scope Z_scope.

Abbreviation bytes := (list Byte.byte).

(** ** Panics and outcomes *)

Inductive panic := NilDereference | IndexOutOfRange.

Inductive outcome (A : Type) :=
  | Returned (a : A)
  | Panicked (p : panic).
Arguments Returned {A} a.
Arguments Panicked {A} p.

(** ** Errors

    [errors.Wrap]/[errors.Wrapf] of github.com/pkg/errors keep the cause and
    prefix a message; the formatted message is kept as written. *)

Inductive error :=
  | ErrorString (msg : string)
  | Wrapped (cause : error) (msg : string).

Definition Wrap (err : error) (msg : string) : error := Wrapped err msg.

(** [Wrapf err "<prefix>%s" arg] for the two format strings of the file. *)
Definition Wrapf (err : error) (prefix arg : string) : error :=
  Wrapped err (prefix +:+ arg).

#[global] Instance error_eq_dec : EqDecision error.
Proof. solve_decision. Defined.

(** ** Package v1 of go-containerregistry: the fields the code reads *)

Module v1.

Record Hash := { Algorithm : string; Hex : string }.

(** [Hash.String()] *)
Definition Hash_String (h : Hash) : string :=
  Algorithm h +:+ ":" +:+ Hex h.

Record Descriptor := { Digest : Hash; Size : Z }.

Record Manifest := { Config : Descriptor; Layers : list Descriptor }.

Record RootFSType := { DiffIDs : list Hash }.

Record ConfigFile := {
  Architecture : string;
  OS : string;
  Variant : string;
  RootFS : RootFSType
}.

(** The [v1.Image] interface, as the results of the five methods the file
    calls.  An image does not change: a method gives the same result each
    time it is called.  Every call site discards the method's error, so a
    failed call is seen as its zero value: [None] for the two pointer
    results. *)
Record Image := {
  Image_RawManifest : bytes;
  Image_RawConfigFile : bytes;
  Image_ConfigFile : option ConfigFile;
  Image_Manifest : option Manifest;
  Image_Digest : Hash
}.

#[global] Instance Hash_eq_dec : EqDecision Hash.
Proof. solve_decision. Defined.
#[global] Instance Descriptor_eq_dec : EqDecision Descriptor.
Proof. solve_decision. Defined.
#[global] Instance Manifest_eq_dec : EqDecision Manifest.
Proof. solve_decision. Defined.
#[global] Instance RootFSType_eq_dec : EqDecision RootFSType.
Proof. solve_decision. Defined.
#[global] Instance ConfigFile_eq_dec : EqDecision ConfigFile.
Proof. solve_decision. Defined.

End v1.

(** ** Layer mapping *)

Record LayerMapping := {
  ByDiffId : gmap string string;
  ByDigest : gmap string string;
  DiffIdByOrdinal : gmap Z string;
  DigestByOrdinal : gmap Z string;
  OrdinalByDiffId : gmap string Z
}.

(** The body of the loop of [createLayerMapping] at index [i]. *)
Definition recordLayer (i : nat) (layer : v1.Descriptor) (diffId : v1.Hash)
    (lm : LayerMapping) : LayerMapping :=
  let d := v1.Hash_String diffId in
  let g := v1.Hash_String (v1.Digest layer) in
  {| ByDiffId := <[d := g]> (ByDiffId lm);
     ByDigest := <[g := d]> (ByDigest lm);
     OrdinalByDiffId := <[d := Z.of_nat i]> (OrdinalByDiffId lm);
     DiffIdByOrdinal := <[Z.of_nat i := d]> (DiffIdByOrdinal lm);
     DigestByOrdinal := <[Z.of_nat i := g]> (DigestByOrdinal lm) |}.

(** [for i := range layers]: [rest] is [layers[i:]], so its head is
    [layers[i]]; [diffIds[i]] is a checked slice access. *)
Fixpoint fillLayers (diffIds : list v1.Hash) (i : nat)
    (rest : list v1.Descriptor) (lm : LayerMapping) : outcome LayerMapping :=
  match rest with
  | [] => Returned lm
  | layer :: rest' =>
      match diffIds !! i with
      | None => Panicked IndexOutOfRange
      | Some diffId =>
          fillLayers diffIds (S i) rest' (recordLayer i layer diffId lm)
      end
  end.

Definition emptyLayerMapping : LayerMapping :=
  {| ByDiffId := ∅; ByDigest := ∅; DiffIdByOrdinal := ∅;
     DigestByOrdinal := ∅; OrdinalByDiffId := ∅ |}.

Definition createLayerMapping (img : v1.Image) : outcome LayerMapping :=
  match v1.Image_ConfigFile img with
  | None => Panicked NilDereference
  | Some config =>
      let diffIds := v1.DiffIDs (v1.RootFS config) in
      match v1.Image_Manifest img with
      | None => Panicked NilDereference
      | Some manifest => fillLayers diffIds 0 (v1.Layers manifest) emptyLayerMapping
      end
  end.

(** ** Package types

    A sibling package of [sbom]; its structs are given with the fields
    [index.go] reads or writes.  Three of its types are used opaquely by
    [index.go] and stay abstract. *)

Class OpaqueTypes := {
  Package : Type;
  DistroInfo : Type;
  VulnerabilityList : Type;
  (** the zero value of the [Vulnerabilities] field *)
  noVulnerabilities : VulnerabilityList
}.

Module types.
Section Structs.
Context `{OpaqueTypes}.

Record Platform := {
  Os : string;
  Architecture : string;
  Variant : string
}.

Record ImageSource := {
  Name : string;
  Digest : string;
  Manifest : option v1.Manifest;
  Config : option v1.ConfigFile;
  RawManifest : string;
  RawConfig : string;
  Distro : DistroInfo;
  ImagePlatform : Platform;
  Size : Z;
  Tags : option (list string)
}.

Record Source := { SourceType : string; Image : ImageSource }.

Record Descriptor := {
  DescriptorName : string;
  Version : string;
  SbomVersion : string
}.

Record Sbom := {
  Artifacts : list Package;
  SbomSource : Source;
  SbomDescriptor : Descriptor;
  Vulnerabilities : VulnerabilityList
}.

(** What an engine delivers on its channel: its packages, the distro it
    identified and, by the engine contract, the error it ran into.
    [index.go] reads [Packages] and [Distro] and hands the whole value to
    [MergePackages]; it never looks at [Error]. *)
Record IndexResult := {
  Packages : list Package;
  ResultDistro : DistroInfo;
  Error : option error
}.

Definition setPackages (r : IndexResult) (ps : list Package) : IndexResult :=
  {| Packages := ps; ResultDistro := ResultDistro r; Error := Error r |}.

Definition setTags (s : Sbom) (tags : option (list string)) : Sbom :=
  let i := Image (SbomSource s) in
  {| Artifacts := Artifacts s;
     SbomSource :=
       {| SourceType := SourceType (SbomSource s);
          Image :=
            {| Name := Name i; Digest := Digest i; Manifest := Manifest i;
               Config := Config i; RawManifest := RawManifest i;
               RawConfig := RawConfig i; Distro := Distro i;
               ImagePlatform := ImagePlatform i; Size := Size i;
               Tags := tags |} |};
     SbomDescriptor := SbomDescriptor s;
     Vulnerabilities := Vulnerabilities s |}.

Definition setVulnerabilities (s : Sbom) (v : VulnerabilityList) : Sbom :=
  {| Artifacts := Artifacts s;
     SbomSource := SbomSource s;
     SbomDescriptor := SbomDescriptor s;
     Vulnerabilities := v |}.

End Structs.
End types.

(** [internal.FromBuild()] *)
Record Build := { BuildVersion : string; BuildSbomVersion : string }.

(** The two observations [indexImage] makes of a parsed [name.Reference]:
    [ref.Context().String()] and [ref.Identifier()]. *)
Record Reference := { Context_String : string; Identifier : string }.

(** ** The world: environment, file system, launched engines *)

Inductive Engine := Trivy | Syft.

Inductive node :=
  | File (content : bytes)
  | NoAccess.                (* present, but reading it fails *)

Inductive oserror := ErrNotExist | ErrOther.

Record World := {
  env : gmap string string;
  fs : gmap string node;
  locked : gset string;              (* paths that cannot be written *)
  launched : list (Engine * string)  (* engine goroutines started, oldest first *)
}.

Definition M (A : Type) : Type := World → outcome A * World.

#[global] Instance M_ret : MRet M := λ A a w, (Returned a, w).
#[global] Instance M_bind : MBind M := λ A B f m w,
  match m w with
  | (Returned a, w') => f a w'
  | (Panicked p, w') => (Panicked p, w')
  end.

(** An operation that may panic but leaves the world alone. *)
Definition call {A} (o : outcome A) : M A := λ w, (o, w).

(** Dereference of a possibly nil pointer. *)
Definition deref {A} (p : option A) : M A :=
  match p with
  | Some a => mret a
  | None => call (Panicked NilDereference)
  end.

Definition os_LookupEnv (key : string) : M (option string) :=
  λ w, (Returned (env w !! key), w).

Definition os_Stat (path : string) : M (option oserror) :=
  λ w, (Returned (match fs w !! path with
                  | None => Some ErrNotExist
                  | Some _ => None
                  end), w).

Definition os_IsNotExist (err : option oserror) : bool :=
  match err with Some ErrNotExist => true | _ => false end.

Definition os_ReadFile (path : string) : M (bytes * option oserror) :=
  λ w, (Returned (match fs w !! path with
                  | Some (File b) => (b, None)
                  | Some NoAccess => ([], Some ErrOther)
                  | None => ([], Some ErrNotExist)
                  end), w).

Definition os_WriteFile (path : string) (data : bytes) : M (option oserror) :=
  λ w, if decide (path ∈ locked w)
       then (Returned (Some ErrOther), w)
       else (Returned None,
             {| env := env w; fs := <[path := File data]> (fs w);
                locked := locked w; launched := launched w |}).

(** [go engine(path, lm, ch)] *)
Definition launch (e : Engine) (path : string) : M unit :=
  λ w, (Returned tt,
        {| env := env w; fs := fs w; locked := locked w;
           launched := launched w ++ [(e, path)] |}).

(** ** What [index.go] calls but does not define

    Library functions (path/filepath, encoding/json, encoding/base64,
    go-containerregistry's name) and functions of sibling packages of the
    repository (internal, types, registry, query, and the two engine
    runners of package sbom) are parameters of the embedding. *)

Class Externals `{OpaqueTypes} := {
  filepath_Join : string → string → string;
  (** [json.Unmarshal(b, &sbom)] into a fresh [Sbom]; [None] is an error *)
  json_Unmarshal : bytes → option types.Sbom;
  (** [json.MarshalIndent] of an [Sbom] with two-space indentation; [None]
      is an error *)
  json_MarshalIndent : types.Sbom → option bytes;
  base64_EncodeToString : bytes → string;
  FromBuild : Build;
  (** the [IndexResult] each engine sends on its channel *)
  trivySbom : string → LayerMapping → types.IndexResult;
  syftSbom : string → LayerMapping → types.IndexResult;
  NormalizePackages : list Package → list Package * option error;
  MergePackages : types.IndexResult → types.IndexResult → list Package;
  name_ParseReference : string → Reference + error;
  registry_SaveImage : string → M (v1.Image * string * option error);
  registry_ReadImage : string → M (v1.Image * option error);
  query_QueryCves :
    option types.Sbom → string → string → string →
    outcome (option VulnerabilityList * option error)
}.

Section Index.
Context `{Externals}.

(** The result of the three functions that return an [Sbom] pointer, an
    [Image] pointer and an error. *)
Definition IndexReturn : Type :=
  option types.Sbom * option v1.Image * option error.

(** Lines 83-97 of [indexImage]: the persisted document, when it can be
    reused. *)
Definition reusableSbom (sbomPath : string) : M (option types.Sbom) :=
  noCache ← os_LookupEnv "ATOMIST_NO_CACHE";
  match noCache with
  | Some _ => mret None
  | None =>
      staterr ← os_Stat sbomPath;
      if os_IsNotExist staterr then mret None
      else
        '(b, err) ← os_ReadFile sbomPath;
        match err with
        | Some _ => mret None
        | None =>
            match json_Unmarshal b with
            | None => mret None
            | Some sbom =>
                if decide
                     (types.SbomVersion (types.SbomDescriptor sbom)
                        = BuildSbomVersion FromBuild
                      ∧ types.Version (types.SbomDescriptor sbom)
                        = BuildVersion FromBuild)
                then mret (Some sbom)
                else mret None
            end
        end
  end.

(** Lines 128-138: the name and tag list that go into the document, or
    the error of [name.ParseReference]. *)
Definition resolveName (imageName : string) : (string * list string) + error :=
  if decide (imageName = EmptyString) then inl (imageName, [])
  else
    match name_ParseReference imageName with
    | inr err => inr err
    | inl ref =>
        inl (Context_String ref,
             if String.prefix "sha256:" (Identifier ref) then []
             else [Identifier ref])
    end.

(** Lines 140-165: the struct literal. *)
Definition assemble (img : v1.Image) (c : v1.ConfigFile) (m : v1.Manifest)
    (imageName : string) (packages : list Package)
    (syftResult : types.IndexResult) : types.Sbom :=
  {| types.Artifacts := packages;
     types.SbomSource :=
       {| types.SourceType := "image";
          types.Image :=
            {| types.Name := imageName;
               types.Digest := v1.Hash_String (v1.Image_Digest img);
               types.Manifest := Some m;
               types.Config := Some c;
               types.RawManifest :=
                 base64_EncodeToString (v1.Image_RawManifest img);
               types.RawConfig :=
                 base64_EncodeToString (v1.Image_RawConfigFile img);
               types.Distro := types.ResultDistro syftResult;
               types.ImagePlatform :=
                 {| types.Os := v1.OS c;
                    types.Architecture := v1.Architecture c;
                    types.Variant := v1.Variant c |};
               types.Size := v1.Size (v1.Config m);
               types.Tags := None |} |};
     types.SbomDescriptor :=
       {| types.DescriptorName := "docker index";
          types.Version := BuildVersion FromBuild;
          types.SbomVersion := BuildSbomVersion FromBuild |};
     types.Vulnerabilities := noVulnerabilities |}.

(** Lines 167-169: a non-empty tag list is attached to the document. *)
Definition withTags (sbom : types.Sbom) (tag : list string) : types.Sbom :=
  if decide (0 < length tag)%nat then types.setTags sbom (Some tag) else sbom.

(** Lines 171-174: the document is written when it could be encoded; the
    result of the write is dropped. *)
Definition persist (sbomPath : string) (sbom : types.Sbom) : M unit :=
  match json_MarshalIndent sbom with
  | Some js => os_WriteFile sbomPath js;; mret tt
  | None => mret tt
  end.

(** Lines 99-176 of [indexImage]: what runs when no persisted document is
    reused. *)
Definition indexFresh (img : v1.Image) (imageName path sbomPath : string)
    : M IndexReturn :=
  lm ← call (createLayerMapping img);
  launch Trivy path;;
  launch Syft path;;
  let trivyResult := trivySbom path lm in
  let syftResult := syftSbom path lm in
  let '(trivyPackages, err) := NormalizePackages (types.Packages trivyResult) in
  let trivyResult := types.setPackages trivyResult trivyPackages in
  let '(syftPackages, err) := NormalizePackages (types.Packages syftResult) in
  let syftResult := types.setPackages syftResult syftPackages in
  match err with
  | Some err =>
      mret (None, None, Some (Wrapf err "failed to normalize packagess: " imageName))
  | None =>
      let packages := MergePackages syftResult trivyResult in
      match resolveName imageName with
      | inr err =>
          mret (None, None, Some (Wrapf err "failed to parse reference: " imageName))
      | inl (imageName', tag) =>
          c ← deref (v1.Image_ConfigFile img);
          m ← deref (v1.Image_Manifest img);
          let sbom := assemble img c m imageName' packages syftResult in
          let sbom := withTags sbom tag in
          persist sbomPath sbom;;
          mret (Some sbom, Some img, None)
      end
  end.

Definition indexImage (img : v1.Image) (imageName path : string) : M IndexReturn :=
  let sbomPath := filepath_Join path "sbom.json" in
  cached ← reusableSbom sbomPath;
  match cached with
  | Some sbom => mret (Some sbom, Some img, None)
  | None => indexFresh img imageName path sbomPath
  end.

Definition IndexPath (path name : string) : M IndexReturn :=
  '(img, err) ← registry_ReadImage path;
  match err with
  | Some err => mret (None, None, Some (Wrap err "failed to read image"))
  | None => indexImage img name path
  end.

Definition IndexImage (image : string) : M IndexReturn :=
  '(img, path, err) ← registry_SaveImage image;
  match err with
  | Some err => mret (None, None, Some (Wrap err "failed to download image"))
  | None => indexImage img image path
  end.

Record ImageIndexResult := {
  Input : string;
  Image : option v1.Image;
  Sbom : option types.Sbom;
  Error : option error
}.

(** The value is the record sent on [resultChan].  The second [:=] of the
    Go body declares [cves] and assigns to the [err] of the first. *)
Definition indexImageAsync (image : string) : M ImageIndexResult :=
  '(sbom, img, err) ← IndexImage image;
  '(cves, err) ← call (query_QueryCves sbom EmptyString EmptyString EmptyString);
  sbom ← match err with
         | None =>
             v ← deref cves;
             s ← deref sbom;
             mret (Some (types.setVulnerabilities s v))
         | Some _ => mret sbom
         end;
  mret {| Input := image; Image := img; Sbom := sbom; Error := err |}.

End Index.

(** ** Package name of go-containerregistry

    [name.ParseReference] belongs to a library, not to the repository.  The
    general results below hold for any parser; this module gives the
    library's parsing rules under its default options (weak validation,
    default registry and tag), after [pkg/name] of go-containerregistry, so
    that the behaviour on concrete references can be evaluated.  The one
    check that depends on net/url, whether an explicit registry is an RFC
    3986 authority, is the argument [authority]. *)

Module name.

Definition DefaultRegistry : string := "index.docker.io".
Definition defaultRegistryAlias : string := "docker.io".
Definition defaultNamespace : string := "library".
Definition DefaultTag : string := "latest".
Definition repositoryChars : string :=
  "abcdefghijklmnopqrstuvwxyz0123456789_-./".
Definition tagChars : string :=
  "abcdefghijklmnopqrstuvwxyzABCDEFGHIJKLMNOPQRSTUVWXYZ0123456789_-.".
Definition hexChars : string := "0123456789abcdef".

Fixpoint contains (c : ascii) (s : string) : bool :=
  match s with
  | EmptyString => false
  | String c' s' => Ascii.eqb c c' || contains c s'
  end.

Fixpoint allIn (allowed s : string) : bool :=
  match s with
  | EmptyString => true
  | String c s' => contains c allowed && allIn allowed s'
  end.

(** split at the first occurrence of [sep] *)
Fixpoint cut (sep : ascii) (s : string) : option (string * string) :=
  match s with
  | EmptyString => None
  | String c s' =>
      if Ascii.eqb c sep then Some (EmptyString, s')
      else match cut sep s' with
           | Some (a, b) => Some (String c a, b)
           | None => None
           end
  end.

(** split at the last occurrence of [sep] *)
Fixpoint cutLast (sep : ascii) (s : string) : option (string * string) :=
  match s with
  | EmptyString => None
  | String c s' =>
      match cutLast sep s' with
      | Some (a, b) => Some (String c a, b)
      | None => if Ascii.eqb c sep then Some (EmptyString, s') else None
      end
  end.

(** [checkElement]: length bounds, then allowed characters (the texts of
    the two errors are shortened; [ParseReference] drops them) *)
Definition checkElement (what element allowed : string) (lo hi : nat)
    : option error :=
  let n := String.length element in
  if (n <? lo)%nat || (hi <? n)%nat
  then Some (ErrorString (what +:+ " has a bad length: " +:+ element))
  else if allIn allowed element then None
  else Some (ErrorString (what +:+ " has a bad character: " +:+ element)).

Definition checkRepository (repository : string) : option error :=
  checkElement "repository" repository repositoryChars 2 255.

Definition checkTag (tag : string) : option error :=
  checkElement "tag" tag tagChars 1 128.

Record Registry := { registry : string }.
Record Repository := { RepoRegistry : Registry; repository : string }.

Inductive Ref :=
  | Tag (repo : Repository) (tag : string)
  | Digest (repo : Repository) (digest : string).

Section Parsing.
Variable authority : string → bool.

Definition checkRegistry (name : string) : option error :=
  if decide (name = EmptyString) then None
  else if authority name then None
  else Some (ErrorString ("registries must be valid RFC 3986 URI authorities: " +:+ name)).

Definition NewRegistry (name : string) : Registry + error :=
  match checkRegistry name with
  | Some err => inr err
  | None =>
      let name := if decide (name = EmptyString) then DefaultRegistry else name in
      let name := if decide (name = defaultRegistryAlias) then DefaultRegistry else name in
      inl {| registry := name |}
  end.

Definition NewRepository (name : string) : Repository + error :=
  if decide (name = EmptyString)
  then inr (ErrorString "a repository name must be specified")
  else
    let '(reg, repo) :=
      match cut "/" name with
      | Some (first, rest) =>
          if contains "." first || contains ":" first
          then (first, rest) else (EmptyString, name)
      | None => (EmptyString, name)
      end in
    match checkRepository repo with
    | Some err => inr err
    | None =>
        match NewRegistry reg with
        | inr err => inr err
        | inl r => inl {| RepoRegistry := r; repository := repo |}
        end
    end.

Definition RegistryStr (r : Registry) : string :=
  if decide (registry r = EmptyString) then DefaultRegistry else registry r.

Definition hasImplicitNamespace (repo : string) (reg : Registry) : bool :=
  negb (contains "/" repo) && bool_decide (RegistryStr reg = DefaultRegistry).

Definition RepositoryStr (r : Repository) : string :=
  if hasImplicitNamespace (repository r) (RepoRegistry r)
  then defaultNamespace +:+ "/" +:+ repository r
  else repository r.

(** [Repository.Name()], which is also [Repository.String()] *)
Definition Repository_Name (r : Repository) : string :=
  RegistryStr (RepoRegistry r) +:+ "/" +:+ RepositoryStr r.

Definition NewTag (name : string) : (Repository * string) + error :=
  let '(base, tag) :=
    match cutLast ":" name with
    | Some (b, t) => if contains "/" t then (name, EmptyString) else (b, t)
    | None => (name, EmptyString)
    end in
  match (if decide (tag = EmptyString) then None else checkTag tag) with
  | Some err => inr err
  | None =>
      let tag := if decide (tag = EmptyString) then DefaultTag else tag in
      match NewRepository base with
      | inr err => inr err
      | inl repo => inl (repo, tag)
      end
  end.

Definition NewDigest (name : string) : (Repository * string) + error :=
  match cut "@" name with
  | None => inr (ErrorString "a digest must contain exactly one '@' separator")
  | Some (base, dig) =>
      if contains "@" dig
      then inr (ErrorString "a digest must contain exactly one '@' separator")
      else if negb (String.prefix "sha256:" dig)
      then inr (ErrorString ("unsupported digest algorithm: " +:+ dig))
      else
        let hex := String.substring 7 (String.length dig - 7) dig in
        if negb ((String.length hex =? 64)%nat && allIn hexChars hex)
        then inr (ErrorString ("invalid checksum digest length or format: " +:+ dig))
        else
          let base := match NewTag base with
                      | inl (repo, _) => Repository_Name repo
                      | inr _ => base
                      end in
          match NewRepository base with
          | inr err => inr err
          | inl repo => inl (repo, dig)
          end
  end.

Definition ParseReference (s : string) : Ref + error :=
  match NewTag s with
  | inl (repo, tag) => inl (Tag repo tag)
  | inr _ =>
      match NewDigest s with
      | inl (repo, dig) => inl (Digest repo dig)
      | inr _ => inr (ErrorString ("could not parse reference: " +:+ s))
      end
  end.

Definition Context (r : Ref) : Repository :=
  match r with Tag repo _ | Digest repo _ => repo end.

Definition Ref_Identifier (r : Ref) : string :=
  match r with Tag _ tag => tag | Digest _ dig => dig end.

(** The parser as [indexImage] sees it. *)
Definition parse (s : string) : Reference + error :=
  match ParseReference s with
  | inl r => inl {| Context_String := Repository_Name (Context r);
                    Identifier := Ref_Identifier r |}
  | inr err => inr err
  end.

End Parsing.

End name.

(** ** Concrete images, engines and worlds

    Small instances on which the definitions above can be evaluated.  The
    functions standing in for the JSON codec and the sibling packages are
    deliberately simple; only the examples use them. *)

Module Demo.

Definition demoTypes : OpaqueTypes :=
  {| Package := string;
     DistroInfo := string;
     VulnerabilityList := list string;
     noVulnerabilities := [] |}.
#[local] Existing Instance demoTypes.

#[global] Instance byte_eq_dec : EqDecision Byte.byte := Byte.byte_eq_dec.
#[global] Instance Package_eq_dec : EqDecision (@Package demoTypes) := String.eq_dec.
#[global] Instance DistroInfo_eq_dec : EqDecision (@DistroInfo demoTypes) := String.eq_dec.
#[global] Instance VulnerabilityList_eq_dec :
  EqDecision (@VulnerabilityList demoTypes) := list_eq_dec.
#[global] Instance Platform_eq_dec : EqDecision (@types.Platform).
Proof. solve_decision. Defined.
#[global] Instance ImageSource_eq_dec : EqDecision (@types.ImageSource demoTypes).
Proof. solve_decision. Defined.
#[global] Instance Source_eq_dec : EqDecision (@types.Source demoTypes).
Proof. solve_decision. Defined.
#[global] Instance SbomDescriptor_eq_dec : EqDecision (@types.Descriptor).
Proof. solve_decision. Defined.
#[global] Instance Sbom_eq_dec : EqDecision (@types.Sbom demoTypes).
Proof. solve_decision. Defined.

Definition sha (hex : string) : v1.Hash :=
  {| v1.Algorithm := "sha256"; v1.Hex := hex |}.

Definition layer (hex : string) (size : Z) : v1.Descriptor :=
  {| v1.Digest := sha hex; v1.Size := size |}.

Definition imageOf (diffIds : list v1.Hash) (layers : list v1.Descriptor)
    : v1.Image :=
  {| v1.Image_RawManifest := [Byte.x7b; Byte.x7d];
     v1.Image_RawConfigFile := [Byte.x7b; Byte.x7d];
     v1.Image_ConfigFile :=
       Some {| v1.Architecture := "amd64"; v1.OS := "linux";
               v1.Variant := EmptyString;
               v1.RootFS := {| v1.DiffIDs := diffIds |} |};
     v1.Image_Manifest :=
       Some {| v1.Config := layer "c0" 1469; v1.Layers := layers |};
     v1.Image_Digest := sha "f0" |}.

(** two layers, aligned diff ids *)
Definition image : v1.Image :=
  imageOf [sha "a1"; sha "a2"] [layer "d1" 10; layer "d2" 20].

(** two layers with the same uncompressed content, stored under two
    digests *)
Definition twinImage : v1.Image :=
  imageOf [sha "a1"; sha "a1"] [layer "d1" 10; layer "d2" 20].

(** two layers stored under one digest with two diff ids: well-typed, though
    no registry would serve it *)
Definition twinDigestImage : v1.Image :=
  imageOf [sha "a1"; sha "a2"] [layer "d1" 10; layer "d1" 10].

(** a config that lists fewer diff ids than the manifest lists layers *)
Definition shortImage : v1.Image :=
  imageOf [sha "a1"] [layer "d1" 10; layer "d2" 20].

Definition build : Build :=
  {| BuildVersion := "0.0.1"; BuildSbomVersion := "3" |}.

(** a package whose name starts with a question mark has a layer
    reference that cannot be resolved *)
Definition normalize (ps : list string) : list string * option error :=
  if existsb (String.prefix "?") ps
  then ([], Some (ErrorString "unresolved layer reference"))
  else (ps, None).

(** the packages of the first result, then those only the second has *)
Definition merge (a b : types.IndexResult) : list string :=
  match types.Packages a with
  | [] => types.Packages b
  | pa => pa ++ list_difference (types.Packages b) pa
  end.

Definition result (ps : list string) (err : option error) : types.IndexResult :=
  {| types.Packages := ps; types.ResultDistro := "alpine"; types.Error := err |}.

(** standard base64 with padding *)
Definition alphabet : string :=
  "ABCDEFGHIJKLMNOPQRSTUVWXYZabcdefghijklmnopqrstuvwxyz0123456789+/".

Definition sextet (n : N) : ascii :=
  default "="%char (String.get (N.to_nat (n mod 64)%N) alphabet).

Fixpoint base64 (bs : bytes) : string :=
  match bs with
  | [] => EmptyString
  | [a] =>
      let n := (Byte.to_N a * 65536)%N in
      String (sextet (n / 262144)) (String (sextet (n / 4096)) "==")
  | [a; b] =>
      let n := (Byte.to_N a * 65536 + Byte.to_N b * 256)%N in
      String (sextet (n / 262144))
        (String (sextet (n / 4096)) (String (sextet (n / 64)) "="))
  | a :: b :: c :: rest =>
      let n := (Byte.to_N a * 65536 + Byte.to_N b * 256 + Byte.to_N c)%N in
      String (sextet (n / 262144))
        (String (sextet (n / 4096))
           (String (sextet (n / 64)) (String (sextet n) (base64 rest))))
  end.

Definition imagePath : string := "/cache/img".

Definition saveError : error := ErrorString "manifest unknown".
Definition lookupError : error := ErrorString "lookup failed".

(** an enrichment that always fails *)
Definition failingQuery (sbom : option types.Sbom) (a b c : string)
    : outcome (option (list string) * option error) :=
  Returned (None, Some lookupError).

(** an enrichment that always finds one record *)
Definition answeringQuery (sbom : option types.Sbom) (a b c : string)
    : outcome (option (list string) * option error) :=
  Returned (Some ["CVE-1"], None).

(** The externals of a run: what the two engines deliver, the one document
    the JSON stand-in knows with its encoding, and the enrichment. *)
Definition externals (trivy syft : types.IndexResult)
    (known : option (types.Sbom * bytes))
    (query : option types.Sbom → string → string → string →
             outcome (option (list string) * option error))
    : Externals :=
  {| filepath_Join := λ dir file, dir +:+ "/" +:+ file;
     json_Unmarshal := λ b,
       match known with
       | Some (doc, enc) => if decide (b = enc) then Some doc else None
       | None => None
       end;
     json_MarshalIndent := λ s,
       match known with
       | Some (doc, enc) => if decide (s = doc) then Some enc else None
       | None => None
       end;
     base64_EncodeToString := base64;
     FromBuild := build;
     trivySbom := λ _ _, trivy;
     syftSbom := λ _ _, syft;
     NormalizePackages := normalize;
     MergePackages := merge;
     name_ParseReference := name.parse (λ _, true);
     registry_SaveImage := λ ref,
       if decide (ref = "missing:latest")
       then mret (image, EmptyString, Some saveError)
       else mret (image, imagePath, None);
     registry_ReadImage := λ _, mret (image, None);
     query_QueryCves := query |}.

Definition emptyWorld : World :=
  {| env := ∅; fs := ∅; locked := ∅; launched := [] |}.

(** a persisted document of the current build, and a world that holds it *)
Definition storedDoc : types.Sbom :=
  {| types.Artifacts := ["zlib"];
     types.SbomSource :=
       {| types.SourceType := "image";
          types.Image :=
            {| types.Name := "index.docker.io/stored/image";
               types.Digest := "sha256:f0";
               types.Manifest := None; types.Config := None;
               types.RawManifest := EmptyString;
               types.RawConfig := EmptyString;
               types.Distro := "alpine";
               types.ImagePlatform :=
                 {| types.Os := "linux"; types.Architecture := "amd64";
                    types.Variant := EmptyString |};
               types.Size := 1469;
               types.Tags := None |} |};
     types.SbomDescriptor :=
       {| types.DescriptorName := "docker index";
          types.Version := "0.0.1"; types.SbomVersion := "3" |};
     types.Vulnerabilities := [] |}.

Definition storedBytes : bytes := [Byte.x7b; Byte.x7d].

Definition cachedWorld : World :=
  {| env := ∅; fs := {[ "/cache/img/sbom.json" := File storedBytes ]};
     locked := ∅; launched := [] |}.

(** engine results *)
Definition trivyFound : types.IndexResult := result ["bash"; "zlib"] None.
Definition syftFound : types.IndexResult := result ["bash"; "curl"] None.
Definition trivyUnresolved : types.IndexResult := result ["?glibc"] None.
Definition syftUnresolved : types.IndexResult := result ["?musl"] None.
Definition trivyFailed : types.IndexResult :=
  result [] (Some (ErrorString "trivy: exit status 1")).
Definition syftFailed : types.IndexResult :=
  result [] (Some (ErrorString "syft: exit status 1")).
Definition threeFound : types.IndexResult := result ["bash"; "curl"; "zlib"] None.

(** the document assembled for [image] named "repo/image:latest" from
    [trivyFound] and [syftFound] *)
Definition assembledDoc : types.Sbom :=
  Eval vm_compute in
    match @indexImage _ (externals trivyFound syftFound None failingQuery)
            image "repo/image:latest" imagePath emptyWorld with
    | (Returned (Some doc, _, _), _) => doc
    | _ => storedDoc
    end.

Definition assembledBytes : bytes := [Byte.x7b; Byte.x0a; Byte.x7d].

(** a run whose JSON stand-in knows [assembledDoc] *)
Definition cachingExternals : Externals :=
  externals trivyFound syftFound (Some (assembledDoc, assembledBytes)) failingQuery.

(** a run whose JSON stand-in knows [storedDoc] *)
Definition storedExternals : Externals :=
  externals trivyFound syftFound (Some (storedDoc, storedBytes)) failingQuery.

(** the layers of [image] under a config that lists one diff id more *)
Definition longImage : v1.Image :=
  imageOf [sha "a1"; sha "a2"; sha "a3"] [layer "d1" 10; layer "d2" 20].

(** a world whose cache file holds bytes that do not decode *)
Definition staleWorld : World :=
  {| env := ∅; fs := {[ "/cache/img/sbom.json" := File [Byte.x00] ]};
     locked := ∅; launched := [] |}.

(** the world of [cachedWorld] with caching disabled *)
Definition noCacheWorld : World :=
  {| env := {[ "ATOMIST_NO_CACHE" := EmptyString ]};
     fs := {[ "/cache/img/sbom.json" := File storedBytes ]};
     locked := ∅; launched := [] |}.

End Demo.

(** ** Vocabulary of the properties *)

(** [foldl] of map insertions: what a loop of [m[k] = v] statements builds. *)
Definition inserts {K V : Type} `{Countable K} (kvs : list (K * V))
    (m : gmap K V) : gmap K V :=
  foldl (λ m kv, <[kv.1 := kv.2]> m) m kvs.

Definition diffKeys (ds : list v1.Hash) : list string :=
  v1.Hash_String <$> ds.
Definition digestKeys (ls : list v1.Descriptor) : list string :=
  (λ l, v1.Hash_String (v1.Digest l)) <$> ls.
Definition ordinals (i n : nat) : list Z := Z.of_nat <$> seq i n.

(** Go map indexing: a missing key reads as the zero value. *)
Definition strAt {K : Type} `{Countable K} (m : gmap K string) (k : K) : string :=
  default EmptyString (m !! k).
Definition intAt {K : Type} `{Countable K} (m : gmap K Z) (k : K) : Z :=
  default 0 (m !! k).

(** The two round trips of the mapping at ordinal [i]:
    [ByDigest[DigestByOrdinal[i]] == DiffIdByOrdinal[i]] and
    [OrdinalByDiffId[DiffIdByOrdinal[i]] == i]. *)
Definition roundTripsAt (lm : LayerMapping) (i : nat) : Prop :=
  strAt (ByDigest lm) (strAt (DigestByOrdinal lm) (Z.of_nat i))
    = strAt (DiffIdByOrdinal lm) (Z.of_nat i)
  ∧ intAt (OrdinalByDiffId lm) (strAt (DiffIdByOrdinal lm) (Z.of_nat i))
    = Z.of_nat i.

Definition fiveMapsOfSize (lm : LayerMapping) (n : nat) : Prop :=
  size (ByDiffId lm) = n ∧ size (ByDigest lm) = n
  ∧ size (DiffIdByOrdinal lm) = n ∧ size (DigestByOrdinal lm) = n
  ∧ size (OrdinalByDiffId lm) = n.

(** Bidirectionality of a mapping built for [n] layers. *)
Definition Bidirectional (lm : LayerMapping) (n : nat) : Prop :=
  (∀ i : nat, (i < n)%nat → roundTripsAt lm i) ∧ fiveMapsOfSize lm n.

(** The diff ids the loop of [createLayerMapping] reads, as map keys: one
    per layer of the manifest. *)
Definition usedDiffKeys (c : v1.ConfigFile) (m : v1.Manifest) : list string :=
  diffKeys (take (length (v1.Layers m)) (v1.DiffIDs (v1.RootFS c))).

(** The digests of the layers of the manifest, as map keys. *)
Definition layerDigestKeys (m : v1.Manifest) : list string :=
  digestKeys (v1.Layers m).

(** A reference by digest, with a digest of 64 hexadecimal digits. *)
Definition digestReference : string :=
  "repo/image@sha256:0123456789abcdef0123456789abcdef0123456789abcdef0123456789abcdef".

Section IndexVocabulary.
Context {T : OpaqueTypes} {X : Externals}.

(** The persisted document at [sbomPath] is reusable: caching is not
    disabled, the file is there and readable, its bytes decode to [s], and
    [s] carries the versions of the current build. *)
Definition CacheHit (sbomPath : string) (w : World) (s : types.Sbom) : Prop :=
  env w !! "ATOMIST_NO_CACHE" = None
  ∧ ∃ b, fs w !! sbomPath = Some (File b)
         ∧ json_Unmarshal b = Some s
         ∧ types.Version (types.SbomDescriptor s) = BuildVersion FromBuild
         ∧ types.SbomVersion (types.SbomDescriptor s) = BuildSbomVersion FromBuild.

(** The world once both engines have been started on [path]. *)
Definition started (path : string) (w : World) : World :=
  {| env := env w; fs := fs w; locked := locked w;
     launched := launched w ++ [(Trivy, path); (Syft, path)] |}.

(** The world after a successful write of [data] to [path]. *)
Definition written (path : string) (data : bytes) (w : World) : World :=
  {| env := env w; fs := <[path := File data]> (fs w);
     locked := locked w; launched := launched w |}.

(** The world [persist] leaves behind. *)
Definition persisted (sbomPath : string) (sbom : types.Sbom) (w : World) : World :=
  match json_MarshalIndent sbom with
  | Some js => if decide (sbomPath ∈ locked w) then w else written sbomPath js w
  | None => w
  end.

(** The same externals with another reference parser. *)
Definition withParser (X : Externals) (parser : string → Reference + error)
    : Externals :=
  {| filepath_Join := @filepath_Join _ X;
     json_Unmarshal := @json_Unmarshal _ X;
     json_MarshalIndent := @json_MarshalIndent _ X;
     base64_EncodeToString := @base64_EncodeToString _ X;
     FromBuild := @FromBuild _ X;
     trivySbom := @trivySbom _ X;
     syftSbom := @syftSbom _ X;
     NormalizePackages := @NormalizePackages _ X;
     MergePackages := @MergePackages _ X;
     name_ParseReference := parser;
     registry_SaveImage := @registry_SaveImage _ X;
     registry_ReadImage := @registry_ReadImage _ X;
     query_QueryCves := @query_QueryCves _ X |}.

(** The same externals with another image store: what [registry.SaveImage]
    answers. *)
Definition withSaveImage (X : Externals)
    (save : string → M (v1.Image * string * option error)) : Externals :=
  {| filepath_Join := @filepath_Join _ X;
     json_Unmarshal := @json_Unmarshal _ X;
     json_MarshalIndent := @json_MarshalIndent _ X;
     base64_EncodeToString := @base64_EncodeToString _ X;
     FromBuild := @FromBuild _ X;
     trivySbom := @trivySbom _ X;
     syftSbom := @syftSbom _ X;
     NormalizePackages := @NormalizePackages _ X;
     MergePackages := @MergePackages _ X;
     name_ParseReference := @name_ParseReference _ X;
     registry_SaveImage := save;
     registry_ReadImage := @registry_ReadImage _ X;
     query_QueryCves := @query_QueryCves _ X |}.

(** [indexImage] succeeds with a document named [n] and tagged [tags]. *)
Definition NamedAs (img : v1.Image) (imageName path : string) (w : World)
    (n : string) (tags : option (list string)) : Prop :=
  ∃ s w', indexImage img imageName path w = (Returned (Some s, Some img, None), w')
          ∧ types.Name (types.Image (types.SbomSource s)) = n
          ∧ types.Tags (types.Image (types.SbomSource s)) = tags.

(** [indexImage] returns no document, no image and the error [err]. *)
Definition FailsWith (img : v1.Image) (imageName path : string) (w : World)
    (err : error) : Prop :=
  ∃ w', indexImage img imageName path w = (Returned (None, None, Some err), w').

(** What a fresh run yields, read off [indexFresh] without the world: the
    panic of [createLayerMapping], the wrapped error of the second
    normalization or of the reference parser, or the assembled document. *)
Definition freshOutcome (img : v1.Image) (imageName path : string)
    : outcome IndexReturn :=
  match createLayerMapping img with
  | Panicked pk => Panicked pk
  | Returned lm =>
      let trivy :=
        types.setPackages (trivySbom path lm)
          (NormalizePackages (types.Packages (trivySbom path lm))).1 in
      let syft :=
        types.setPackages (syftSbom path lm)
          (NormalizePackages (types.Packages (syftSbom path lm))).1 in
      match (NormalizePackages (types.Packages (syftSbom path lm))).2 with
      | Some e =>
          Returned (None, None,
                    Some (Wrapf e "failed to normalize packagess: " imageName))
      | None =>
          match resolveName imageName with
          | inr e =>
              Returned (None, None,
                        Some (Wrapf e "failed to parse reference: " imageName))
          | inl (imageName', tag) =>
              match v1.Image_ConfigFile img, v1.Image_Manifest img with
              | Some c, Some m =>
                  Returned
                    (Some (withTags
                             (assemble img c m imageName'
                                (MergePackages syft trivy) syft) tag),
                     Some img, None)
              | _, _ => Panicked NilDereference
              end
          end
      end
  end.

(** The two shapes a result of the pipeline can have: a document with its
    image and no error, or nothing but a wrapped error. *)
Definition DocumentOrError (r : IndexReturn) : Prop :=
  (∃ s img, r = (Some s, Some img, None))
  ∨ (∃ cause msg, r = (None, None, Some (Wrapped cause msg))).

(** The same world with other unwritable paths. *)
Definition withLocked (w : World) (paths : gset string) : World :=
  {| env := env w; fs := fs w; locked := paths; launched := launched w |}.

(** The same externals with another JSON encoder. *)
Definition withEncoder (X : Externals) (encode : types.Sbom → option bytes)
    : Externals :=
  {| filepath_Join := @filepath_Join _ X;
     json_Unmarshal := @json_Unmarshal _ X;
     json_MarshalIndent := encode;
     base64_EncodeToString := @base64_EncodeToString _ X;
     FromBuild := @FromBuild _ X;
     trivySbom := @trivySbom _ X;
     syftSbom := @syftSbom _ X;
     NormalizePackages := @NormalizePackages _ X;
     MergePackages := @MergePackages _ X;
     name_ParseReference := @name_ParseReference _ X;
     registry_SaveImage := @registry_SaveImage _ X;
     registry_ReadImage := @registry_ReadImage _ X;
     query_QueryCves := @query_QueryCves _ X |}.

End IndexVocabulary.

(** Unfolds the monad and the operations on the world. *)
Ltac run :=
  unfold mbind, M_bind, mret, M_ret, call, deref, launch,
         os_LookupEnv, os_Stat, os_ReadFile, os_WriteFile in *.

(** * Properties *)

(** ** Successive map insertions *)

Section Inserts.
Context {K V : Type} `{Countable K}.

Lemma inserts_lookup_notin (kvs : list (K * V)) : ∀ m k,
  k ∉ kvs.*1 → inserts kvs m !! k = m !! k.
Proof.
  induction kvs as [|[k' v'] kvs IH]; intros m k Hk; [done|].
  cbn in *. apply not_elem_of_cons in Hk as [Hne Hk].
  unfold inserts in IH. rewrite IH by done. by rewrite lookup_insert_ne.
Qed.

Lemma inserts_lookup (kvs : list (K * V)) : ∀ m k v,
  NoDup kvs.*1 → (k, v) ∈ kvs → inserts kvs m !! k = Some v.
Proof.
  induction kvs as [|[k' v'] kvs IH]; intros m k v Hnd Hin.
  - by apply elem_of_nil in Hin.
  - cbn in Hnd. apply NoDup_cons in Hnd as [Hk' Hnd].
    apply elem_of_cons in Hin as [Heq|Hin].
    + injection Heq as -> ->. cbn.
      change (inserts kvs (<[k':=v']> m) !! k' = Some v').
      rewrite inserts_lookup_notin by done. apply lookup_insert_eq.
    + cbn. by apply IH.
Qed.

Lemma inserts_size (kvs : list (K * V)) : ∀ m,
  NoDup kvs.*1 → (∀ k, k ∈ kvs.*1 → m !! k = None) →
  size (inserts kvs m) = (length kvs + size m)%nat.
Proof.
  induction kvs as [|[k' v'] kvs IH]; intros m Hnd Hfresh; [done|].
  cbn in Hnd. apply NoDup_cons in Hnd as [Hk' Hnd]. cbn.
  change (size (inserts kvs (<[k':=v']> m)) = S (length kvs + size m)).
  rewrite IH; [|done|].
  - rewrite map_size_insert_None; [lia|]. apply Hfresh. cbn. left.
  - intros k Hk. rewrite lookup_insert_ne.
    + apply Hfresh. cbn. by right.
    + intros ->. done.
Qed.

Lemma inserts_dom (kvs : list (K * V)) : ∀ m,
  dom (inserts kvs m) = (list_to_set kvs.*1 ∪ dom m : gset K).
Proof.
  induction kvs as [|[k v] kvs IH]; intros m; cbn.
  - by rewrite (left_id_L ∅ (∪)).
  - change (dom (inserts kvs (<[k:=v]> m))
            = ({[k]} ∪ list_to_set kvs.*1 ∪ dom m : gset K)).
    rewrite IH, dom_insert_L.
    rewrite (assoc_L (∪)). f_equal. apply (comm_L (∪)).
Qed.

Lemma size_list_to_set_le (l : list K) :
  (size (list_to_set l : gset K) ≤ length l)%nat.
Proof.
  induction l as [|x l IH]; cbn.
  - by rewrite size_empty.
  - rewrite size_union_alt, size_singleton.
    pose proof (subseteq_size (list_to_set l ∖ {[x]}) (list_to_set l : gset K)) as Hle.
    assert (list_to_set l ∖ {[x]} ⊆ (list_to_set l : gset K)) as Hsub.
    { intros y Hy. by apply elem_of_difference in Hy as [Hy _]. }
    apply Hle in Hsub. lia.
Qed.

(** A set built from a list has as many elements as the list only if the
    list repeats nothing. *)
Lemma size_list_to_set_NoDup (l : list K) :
  size (list_to_set l : gset K) = length l → NoDup l.
Proof.
  induction l as [|x l IH]; cbn; intros Hsize; [constructor|].
  pose proof (size_list_to_set_le l) as Hle.
  destruct (decide (x ∈ l)) as [Hin|Hnotin].
  - assert ({[x]} ∪ list_to_set l = (list_to_set l : gset K)) as Heq.
    { apply subseteq_union_1_L. intros y Hy. apply elem_of_singleton in Hy as ->.
      by apply elem_of_list_to_set. }
    rewrite Heq in Hsize. lia.
  - rewrite size_union, size_singleton in Hsize.
    + apply NoDup_cons. split; [done|]. apply IH. lia.
    + intros y Hy1 Hy2. apply elem_of_singleton in Hy1 as ->.
      by apply elem_of_list_to_set in Hy2.
Qed.

(** A map built by insertions from the empty map has as many entries as
    insertions only if no key was inserted twice. *)
Lemma inserts_size_NoDup (kvs : list (K * V)) :
  size (inserts kvs (∅ : gmap K V)) = length kvs → NoDup kvs.*1.
Proof.
  intros Hsize. apply size_list_to_set_NoDup.
  rewrite length_fmap, <- Hsize, <- size_dom, inserts_dom, dom_empty_L.
  by rewrite (right_id_L ∅ (∪)).
Qed.

End Inserts.

(** ** The layer mapping *)

Section LayerMappingFacts.

(** The loop panics exactly when it runs past the end of [diffIds]. *)
Lemma fillLayers_total ds : ∀ rest i lm,
  (∃ lm', fillLayers ds i rest lm = Returned lm')
  ↔ (length rest ≤ length ds - i)%nat.
Proof.
  induction rest as [|layer rest IH]; intros i lm; cbn.
  - split; [lia | eauto].
  - destruct (ds !! i) as [d|] eqn:E.
    + rewrite IH. apply lookup_lt_Some in E. lia.
    + apply lookup_ge_None in E. split; [by intros [? ?] | lia].
Qed.

Lemma fillLayers_panic ds rest i lm p :
  fillLayers ds i rest lm = Panicked p → p = IndexOutOfRange.
Proof.
  revert i lm. induction rest as [|layer rest IH]; intros i lm; cbn; [done|].
  destruct (ds !! i); [apply IH | congruence].
Qed.

(** Each map of the result is the map of the start with one insertion per
    layer, in layer order. *)
Lemma fillLayers_inserts ds : ∀ rest i lm lm',
  fillLayers ds i rest lm = Returned lm' →
  let n := length rest in
  let dS := diffKeys (take n (drop i ds)) in
  let gS := digestKeys rest in
  let os := ordinals i n in
  ByDiffId lm' = inserts (zip dS gS) (ByDiffId lm)
  ∧ ByDigest lm' = inserts (zip gS dS) (ByDigest lm)
  ∧ OrdinalByDiffId lm' = inserts (zip dS os) (OrdinalByDiffId lm)
  ∧ DiffIdByOrdinal lm' = inserts (zip os dS) (DiffIdByOrdinal lm)
  ∧ DigestByOrdinal lm' = inserts (zip os gS) (DigestByOrdinal lm).
Proof.
  induction rest as [|layer rest IH]; intros i lm lm' Hrun; cbn in Hrun.
  - injection Hrun as <-. by cbn.
  - destruct (ds !! i) as [d|] eqn:E; [|done].
    apply IH in Hrun. cbn zeta in *.
    rewrite (drop_S _ _ _ E). cbn [length take diffKeys digestKeys fmap list_fmap].
    unfold ordinals. cbn [seq fmap list_fmap zip zip_with].
    unfold diffKeys, digestKeys, ordinals in Hrun. cbn in Hrun.
    destruct Hrun as (-> & -> & -> & -> & ->). done.
Qed.

Lemma elem_of_zip_lookup {A B} (l : list A) (k : list B) i a b :
  l !! i = Some a → k !! i = Some b → (a, b) ∈ zip l k.
Proof.
  intros Ha Hb. apply (list_elem_of_lookup_2 _ i).
  rewrite lookup_zip_with. rewrite Ha. cbn. rewrite Hb. done.
Qed.

Lemma NoDup_ordinals i n : NoDup (ordinals i n).
Proof. apply NoDup_fmap_2; [apply Nat2Z.inj' | apply NoDup_seq]. Qed.

(** With as many diff ids as layers, and no repeated diff id or digest,
    the mapping built from the empty one is bidirectional. *)
Lemma fillLayers_Bidirectional ds layers lm :
  length ds = length layers →
  NoDup (diffKeys ds) → NoDup (digestKeys layers) →
  fillLayers ds 0 layers emptyLayerMapping = Returned lm →
  Bidirectional lm (length layers).
Proof.
  intros Hlen Hd Hg Hrun. apply fillLayers_inserts in Hrun. cbn zeta in Hrun.
  rewrite drop_0, take_ge in Hrun by lia. cbn in Hrun.
  set (n := length layers) in *.
  set (dS := diffKeys ds) in *. set (gS := digestKeys layers) in *.
  set (os := ordinals 0 n) in *.
  assert (HdS : length dS = n) by (unfold dS, diffKeys; rewrite length_fmap; lia).
  assert (HgS : length gS = n) by (unfold gS, digestKeys; by rewrite length_fmap).
  assert (Hos : length os = n)
    by (unfold os, ordinals; by rewrite length_fmap, length_seq).
  destruct Hrun as (E1 & E2 & E3 & E4 & E5).
  split.
  - intros i Hi.
    destruct (lookup_lt_is_Some_2 dS i) as [d Hdi]; [lia|].
    destruct (lookup_lt_is_Some_2 gS i) as [g Hgi]; [lia|].
    assert (Hoi : os !! i = Some (Z.of_nat i)).
    { unfold os, ordinals. rewrite list_lookup_fmap, lookup_seq_lt by done. done. }
    unfold roundTripsAt, strAt, intAt. rewrite E2, E3, E4, E5.
    rewrite (inserts_lookup (zip os gS) _ (Z.of_nat i) g);
      [|rewrite fst_zip by lia; apply NoDup_ordinals
       |by apply (elem_of_zip_lookup _ _ i)].
    rewrite (inserts_lookup (zip os dS) _ (Z.of_nat i) d);
      [|rewrite fst_zip by lia; apply NoDup_ordinals
       |by apply (elem_of_zip_lookup _ _ i)].
    cbn.
    rewrite (inserts_lookup (zip gS dS) _ g d);
      [|by rewrite fst_zip by lia|by apply (elem_of_zip_lookup _ _ i)].
    rewrite (inserts_lookup (zip dS os) _ d (Z.of_nat i));
      [|by rewrite fst_zip by lia|by apply (elem_of_zip_lookup _ _ i)].
    done.
  - unfold fiveMapsOfSize. rewrite E1, E2, E3, E4, E5.
    rewrite !inserts_size; try (intros; apply lookup_empty);
      try (rewrite fst_zip by lia; first [done | apply NoDup_ordinals]).
    rewrite !length_zip, !map_size_empty, HdS, HgS, Hos, !Nat.min_id, !Nat.add_0_r.
    done.
Qed.

(** The distinctness asked of the layers is needed: when the maps keyed by
    diff id and by digest have one entry per layer, no diff id and no
    digest is repeated. *)
Lemma fillLayers_sizes_NoDup ds layers lm :
  length ds = length layers →
  fillLayers ds 0 layers emptyLayerMapping = Returned lm →
  fiveMapsOfSize lm (length layers) →
  NoDup (diffKeys ds) ∧ NoDup (digestKeys layers).
Proof.
  intros Hlen Hrun (Hs1 & Hs2 & _). apply fillLayers_inserts in Hrun. cbn zeta in Hrun.
  rewrite drop_0, take_ge in Hrun by lia. cbn in Hrun.
  destruct Hrun as (E1 & E2 & _).
  assert (HdS : length (diffKeys ds) = length layers)
    by (unfold diffKeys; rewrite length_fmap; lia).
  assert (HgS : length (digestKeys layers) = length layers)
    by (unfold digestKeys; by rewrite length_fmap).
  split.
  - rewrite <- (fst_zip (diffKeys ds) (digestKeys layers)) by lia.
    apply inserts_size_NoDup. rewrite E1 in Hs1.
    transitivity (length layers); [exact Hs1 | rewrite length_zip; lia].
  - rewrite <- (fst_zip (digestKeys layers) (diffKeys ds)) by lia.
    apply inserts_size_NoDup. rewrite E2 in Hs2.
    transitivity (length layers); [exact Hs2 | rewrite length_zip; lia].
Qed.

End LayerMappingFacts.

(** C6, for images without repeated layers: for an image whose config lists as many diff ids as its
    manifest lists layers, and in which no diff id and no layer digest
    occurs twice, [createLayerMapping] returns a mapping with
    [ByDigest[DigestByOrdinal[i]] == DiffIdByOrdinal[i]] and
    [OrdinalByDiffId[DiffIdByOrdinal[i]] == i] at every ordinal [i] below the
    layer count, and each of the five maps has as many entries as the image
    has layers. *)
Theorem C6_layer_mapping_bidirectional (img : v1.Image) c m :
  v1.Image_ConfigFile img = Some c →
  v1.Image_Manifest img = Some m →
  length (v1.DiffIDs (v1.RootFS c)) = length (v1.Layers m) →
  NoDup (diffKeys (v1.DiffIDs (v1.RootFS c))) →
  NoDup (digestKeys (v1.Layers m)) →
  ∃ lm, createLayerMapping img = Returned lm
        ∧ Bidirectional lm (length (v1.Layers m)).
Proof.
  intros Hc Hm Hlen Hd Hg. unfold createLayerMapping. rewrite Hc, Hm.
  destruct (proj2 (fillLayers_total (v1.DiffIDs (v1.RootFS c)) (v1.Layers m)
                     0 emptyLayerMapping)) as [lm Hlm]; [lia|].
  exists lm. split; [done|]. by apply (fillLayers_Bidirectional _ _ _ Hlen).
Qed.

(** C10: for an image with a config and a manifest, [createLayerMapping]
    returns a mapping exactly when the config has at least as many diff ids
    as the manifest has layers, and it panics with an index out of range
    exactly when it has fewer. *)
Theorem C10_createLayerMapping_total_iff (img : v1.Image) c m :
  v1.Image_ConfigFile img = Some c →
  v1.Image_Manifest img = Some m →
  ((∃ lm, createLayerMapping img = Returned lm)
     ↔ (length (v1.Layers m) ≤ length (v1.DiffIDs (v1.RootFS c)))%nat)
  ∧ (createLayerMapping img = Panicked IndexOutOfRange
     ↔ (length (v1.DiffIDs (v1.RootFS c)) < length (v1.Layers m))%nat).
Proof.
  intros Hc Hm. unfold createLayerMapping. rewrite Hc, Hm.
  pose proof (fillLayers_total (v1.DiffIDs (v1.RootFS c)) (v1.Layers m)
                0 emptyLayerMapping) as Htot.
  rewrite Nat.sub_0_r in Htot. split; [exact Htot|].
  destruct (fillLayers _ 0 _ _) as [lm|p] eqn:E.
  - split; [done|]. intros Hlt. assert (∃ lm', Returned lm = Returned lm') as Hx by eauto.
    apply Htot in Hx. lia.
  - apply fillLayers_panic in E as ->. split; [|done]. intros _.
    destruct (decide (length (v1.Layers m) ≤ length (v1.DiffIDs (v1.RootFS c)))%nat)
      as [Hle|Hgt]; [|lia].
    apply Htot in Hle as [? ?]. done.
Qed.

(** ** The reference parser of go-containerregistry on two references *)

Lemma parse_tag_example authority :
  name.parse authority "repo/image:latest"
  = inl {| Context_String := "index.docker.io/repo/image"; Identifier := "latest" |}.
Proof. reflexivity. Qed.

Lemma parse_digest_example authority :
  authority name.DefaultRegistry = true →
  name.parse authority digestReference
  = inl {| Context_String := "index.docker.io/repo/image";
           Identifier :=
             "sha256:0123456789abcdef0123456789abcdef0123456789abcdef0123456789abcdef" |}.
Proof.
  intros Hauth. vm_compute. vm_compute in Hauth. rewrite Hauth. reflexivity.
Qed.

(** An upper-case letter is not allowed in a repository, and there is no
    digest to fall back on. *)
Lemma parse_uppercase_example authority :
  name.parse authority "Repo/Image"
  = inr (ErrorString "could not parse reference: Repo/Image").
Proof. reflexivity. Qed.

(** ** The per-image pipeline *)

Section IndexFacts.
Context {T : OpaqueTypes} {X : Externals}.

(** The cache probe never panics, leaves the world alone, and yields a
    document exactly when it is reusable. *)
Lemma reusableSbom_run sbomPath w :
  ∃ r, reusableSbom sbomPath w = (Returned r, w)
       ∧ ∀ s, r = Some s ↔ CacheHit sbomPath w s.
Proof.
  unfold reusableSbom, CacheHit. run.
  destruct (env w !! "ATOMIST_NO_CACHE") as [v|] eqn:Eenv.
  { eexists; split; [done|]. intros s; split; [done | by intros [? _]]. }
  destruct (fs w !! sbomPath) as [[b|]|] eqn:Efs; cbn; rewrite ?Efs; cbn.
  - destruct (json_Unmarshal b) as [doc|] eqn:Ejs.
    + case_decide as Hv.
      * eexists; split; [done|]. intros s; split.
        -- intros [= <-]. split; [done|]. exists b. by destruct Hv.
        -- intros (_ & b' & [= <-] & Hb & _). congruence.
      * eexists; split; [done|]. intros s; split; [done|].
        intros (_ & b' & [= <-] & Hb & Hv1 & Hv2).
        rewrite Ejs in Hb. injection Hb as <-. tauto.
    + eexists; split; [done|]. intros s; split; [done|].
      intros (_ & b' & [= <-] & Hb & _). congruence.
  - eexists; split; [done|]. intros s; split; [done|].
    intros (_ & b' & [=] & _).
  - eexists; split; [done|]. intros s; split; [done|].
    intros (_ & b' & [=] & _).
Qed.

Lemma indexImage_hit img imageName path w s :
  CacheHit (filepath_Join path "sbom.json") w s →
  indexImage img imageName path w = (Returned (Some s, Some img, None), w).
Proof.
  intros Hhit. unfold indexImage.
  destruct (reusableSbom_run (filepath_Join path "sbom.json") w) as (r & Hr & Hiff).
  apply Hiff in Hhit as ->. run. by rewrite Hr.
Qed.

Lemma indexImage_miss img imageName path w :
  (∀ s, ¬ CacheHit (filepath_Join path "sbom.json") w s) →
  indexImage img imageName path w
  = indexFresh img imageName path (filepath_Join path "sbom.json") w.
Proof.
  intros Hmiss. unfold indexImage.
  destruct (reusableSbom_run (filepath_Join path "sbom.json") w) as (r & Hr & Hiff).
  destruct r as [s|]; [by destruct (Hmiss s); apply Hiff|].
  run. by rewrite Hr.
Qed.

Lemma createLayerMapping_Returned img lm :
  createLayerMapping img = Returned lm →
  ∃ c m, v1.Image_ConfigFile img = Some c ∧ v1.Image_Manifest img = Some m.
Proof.
  unfold createLayerMapping.
  destruct (v1.Image_ConfigFile img) as [c|]; [|done].
  destruct (v1.Image_Manifest img) as [m|]; [|done]. eauto.
Qed.

Lemma persist_run sbomPath sbom w :
  persist sbomPath sbom w = (Returned tt, persisted sbomPath sbom w).
Proof.
  unfold persist, persisted, written. run.
  destruct (json_MarshalIndent sbom) as [js|]; [|done].
  by destruct (decide (sbomPath ∈ locked w)).
Qed.

(** What runs when nothing is reused, for an image whose layer mapping
    can be built. *)
Lemma indexFresh_run img imageName path sbomPath w lm c m tps terr sps serr :
  createLayerMapping img = Returned lm →
  v1.Image_ConfigFile img = Some c →
  v1.Image_Manifest img = Some m →
  NormalizePackages (types.Packages (trivySbom path lm)) = (tps, terr) →
  NormalizePackages (types.Packages (syftSbom path lm)) = (sps, serr) →
  indexFresh img imageName path sbomPath w =
    match serr with
    | Some e =>
        (Returned (None, None,
                   Some (Wrapf e "failed to normalize packagess: " imageName)),
         started path w)
    | None =>
        match resolveName imageName with
        | inr e =>
            (Returned (None, None,
                       Some (Wrapf e "failed to parse reference: " imageName)),
             started path w)
        | inl (imageName', tag) =>
            let syft := types.setPackages (syftSbom path lm) sps in
            let trivy := types.setPackages (trivySbom path lm) tps in
            let sbom :=
              withTags (assemble img c m imageName' (MergePackages syft trivy) syft)
                       tag in
            (Returned (Some sbom, Some img, None),
             persisted sbomPath sbom (started path w))
        end
    end.
Proof.
  intros Hlm Hc Hm Ht Hs. unfold indexFresh. run.
  rewrite Hlm, Ht, Hs, Hc, Hm. cbn. rewrite <- app_assoc. cbn.
  fold (started path w).
  destruct serr as [e|]; [done|].
  destruct (resolveName imageName) as [[n' tag]|e]; [|done].
  cbn. by rewrite persist_run.
Qed.

Lemma launched_persisted sbomPath sbom w :
  launched (persisted sbomPath sbom w) = launched w.
Proof.
  unfold persisted. destruct (json_MarshalIndent sbom); [|done].
  by destruct (decide (sbomPath ∈ locked w)).
Qed.

(** A fresh run that returns has started both engines. *)
Lemma indexFresh_launched img imageName path sbomPath w r w' :
  indexFresh img imageName path sbomPath w = (Returned r, w') →
  launched w' = (launched w ++ [(Trivy, path); (Syft, path)])%list.
Proof.
  destruct (createLayerMapping img) as [lm|p] eqn:Hlm.
  - destruct (createLayerMapping_Returned _ _ Hlm) as (c & m & Hc & Hm).
    destruct (NormalizePackages (types.Packages (trivySbom path lm)))
      as [tps terr] eqn:Ht.
    destruct (NormalizePackages (types.Packages (syftSbom path lm)))
      as [sps serr] eqn:Hs.
    rewrite (indexFresh_run _ _ _ _ _ _ _ _ _ _ _ _ Hlm Hc Hm Ht Hs).
    destruct serr as [e|]; [by intros [= _ <-]|].
    destruct (resolveName imageName) as [[n' tag]|e]; [|by intros [= _ <-]].
    cbn zeta. intros [= _ <-]. by rewrite launched_persisted.
  - unfold indexFresh. run. by rewrite Hlm.
Qed.

(** A fresh run that fails does so on the second normalization or on the
    image name. *)
Lemma indexFresh_failure img imageName path sbomPath w sb im err w' :
  indexFresh img imageName path sbomPath w = (Returned (sb, im, Some err), w') →
  sb = None ∧ im = None
  ∧ ∃ lm, createLayerMapping img = Returned lm
      ∧ ((∃ ps e, NormalizePackages (types.Packages (syftSbom path lm)) = (ps, Some e)
                  ∧ err = Wrapf e "failed to normalize packagess: " imageName)
         ∨ (∃ e, imageName ≠ EmptyString
                 ∧ name_ParseReference imageName = inr e
                 ∧ err = Wrapf e "failed to parse reference: " imageName)).
Proof.
  destruct (createLayerMapping img) as [lm|p] eqn:Hlm.
  - destruct (createLayerMapping_Returned _ _ Hlm) as (c & m & Hc & Hm).
    destruct (NormalizePackages (types.Packages (trivySbom path lm)))
      as [tps terr] eqn:Ht.
    destruct (NormalizePackages (types.Packages (syftSbom path lm)))
      as [sps serr] eqn:Hs.
    rewrite (indexFresh_run _ _ _ _ _ _ _ _ _ _ _ _ Hlm Hc Hm Ht Hs).
    destruct serr as [e|].
    { intros [= <- <- <- _]. repeat split; [].
      exists lm. split; [done|]. left. eauto. }
    destruct (resolveName imageName) as [[n' tag]|e] eqn:Hn; [done|].
    intros [= <- <- <- _]. repeat split; [].
    exists lm. split; [done|]. right. exists e.
    unfold resolveName in Hn.
    destruct (decide (imageName = EmptyString)); [done|].
    destruct (name_ParseReference imageName); [done|]. by injection Hn as ->.
  - unfold indexFresh. run. by rewrite Hlm.
Qed.

(** C1: [indexImage] hands back a document [s] with the image and no
    error, leaving the world untouched (no engine started, nothing
    written), if and only if caching is not disabled through
    ATOMIST_NO_CACHE, the file sbom.json under the image path exists and
    can be read, its bytes decode to [s], and the descriptor of [s] has the
    Version and the SbomVersion of the current build.  A stored document
    with another SbomVersion is never handed back: the fresh computation
    runs. *)
Theorem C1_cache_hit_iff img imageName path w s :
  (indexImage img imageName path w = (Returned (Some s, Some img, None), w)
   ↔ CacheHit (filepath_Join path "sbom.json") w s)
  ∧ (∀ b doc,
       fs w !! filepath_Join path "sbom.json" = Some (File b) →
       json_Unmarshal b = Some doc →
       types.SbomVersion (types.SbomDescriptor doc) ≠ BuildSbomVersion FromBuild →
       indexImage img imageName path w
       = indexFresh img imageName path (filepath_Join path "sbom.json") w
       ∧ indexImage img imageName path w ≠ (Returned (Some doc, Some img, None), w)).
Proof.
  set (sp := filepath_Join path "sbom.json").
  assert (Hiff : indexImage img imageName path w
                 = (Returned (Some s, Some img, None), w) ↔ CacheHit sp w s).
  { split; [|apply indexImage_hit].
    intros Hrun. unfold indexImage in Hrun. fold sp in Hrun.
    destruct (reusableSbom_run sp w) as (r & Hr & Hiff).
    unfold mbind, M_bind in Hrun. rewrite Hr in Hrun.
    destruct r as [s'|].
    - injection Hrun as <-. by apply Hiff.
    - apply indexFresh_launched in Hrun.
      apply (f_equal length) in Hrun. rewrite length_app in Hrun. cbn in Hrun. lia. }
  split; [exact Hiff|].
  intros b doc Hfs Hjs Hver.
  assert (Hmiss : ∀ s', ¬ CacheHit sp w s').
  { intros s' (_ & b' & Hfs' & Hjs' & _ & Hv).
    rewrite Hfs in Hfs'. injection Hfs' as <-. congruence. }
  split; [by apply indexImage_miss|].
  intros Hrun. rewrite (indexImage_miss _ _ _ _ Hmiss) in Hrun.
  apply indexFresh_launched in Hrun.
  apply (f_equal length) in Hrun. rewrite length_app in Hrun. cbn in Hrun. lia.
Qed.

(** [indexImage] either reuses the stored document or runs afresh. *)
Lemma indexImage_cases img imageName path w o w' :
  indexImage img imageName path w = (o, w') →
  (∃ s, CacheHit (filepath_Join path "sbom.json") w s
        ∧ o = Returned (Some s, Some img, None) ∧ w' = w)
  ∨ ((∀ s, ¬ CacheHit (filepath_Join path "sbom.json") w s)
     ∧ indexFresh img imageName path (filepath_Join path "sbom.json") w = (o, w')).
Proof.
  intros Hrun. unfold indexImage in Hrun.
  destruct (reusableSbom_run (filepath_Join path "sbom.json") w) as (r & Hr & Hiff).
  unfold mbind, M_bind in Hrun. rewrite Hr in Hrun. destruct r as [s|].
  - left. exists s. injection Hrun as <- <-. split; [by apply Hiff | done].
  - right. split; [|done]. intros s Hs. by apply Hiff in Hs.
Qed.

(** A fresh run that yields a document. *)
Lemma indexFresh_success img imageName path sbomPath w s im err w' :
  indexFresh img imageName path sbomPath w = (Returned (Some s, im, err), w') →
  ∃ lm c m tps terr sps imageName' tag,
    createLayerMapping img = Returned lm
    ∧ v1.Image_ConfigFile img = Some c
    ∧ v1.Image_Manifest img = Some m
    ∧ NormalizePackages (types.Packages (trivySbom path lm)) = (tps, terr)
    ∧ NormalizePackages (types.Packages (syftSbom path lm)) = (sps, None)
    ∧ resolveName imageName = inl (imageName', tag)
    ∧ s = withTags
            (assemble img c m imageName'
               (MergePackages (types.setPackages (syftSbom path lm) sps)
                              (types.setPackages (trivySbom path lm) tps))
               (types.setPackages (syftSbom path lm) sps))
            tag
    ∧ im = Some img ∧ err = None
    ∧ w' = persisted sbomPath s (started path w).
Proof.
  destruct (createLayerMapping img) as [lm|p] eqn:Hlm.
  - destruct (createLayerMapping_Returned _ _ Hlm) as (c & m & Hc & Hm).
    destruct (NormalizePackages (types.Packages (trivySbom path lm)))
      as [tps terr] eqn:Ht.
    destruct (NormalizePackages (types.Packages (syftSbom path lm)))
      as [sps serr] eqn:Hs.
    rewrite (indexFresh_run _ _ _ _ _ _ _ _ _ _ _ _ Hlm Hc Hm Ht Hs).
    destruct serr as [e|]; [done|].
    destruct (resolveName imageName) as [[n' tag]|e] eqn:Hn; [|done].
    cbn zeta. intros [= <- <- <- <-].
    exists lm, c, m, tps, terr, sps, n', tag. done.
  - unfold indexFresh. run. by rewrite Hlm.
Qed.

Lemma withTags_Artifacts s tag : types.Artifacts (withTags s tag) = types.Artifacts s.
Proof. unfold withTags. by destruct (decide _). Qed.

Lemma withTags_SbomDescriptor s tag :
  types.SbomDescriptor (withTags s tag) = types.SbomDescriptor s.
Proof. unfold withTags. by destruct (decide _). Qed.

Lemma withTags_Vulnerabilities s tag :
  types.Vulnerabilities (withTags s tag) = types.Vulnerabilities s.
Proof. unfold withTags. by destruct (decide _). Qed.

Lemma withTags_Name s tag :
  types.Name (types.Image (types.SbomSource (withTags s tag)))
  = types.Name (types.Image (types.SbomSource s)).
Proof. unfold withTags. by destruct (decide _). Qed.

Lemma withTags_Tags s tag :
  types.Tags (types.Image (types.SbomSource s)) = None →
  types.Tags (types.Image (types.SbomSource (withTags s tag)))
  = match tag with [] => None | _ => Some tag end.
Proof.
  intros Hs. unfold withTags. destruct tag; cbn; [done|].
  destruct (decide _) as [|Hn]; [done|]. cbn in Hn. lia.
Qed.

Lemma resolveName_empty : resolveName EmptyString = inl (EmptyString, []).
Proof. unfold resolveName. by destruct (decide _). Qed.

(** The parser matters to [indexImage] only through [resolveName]. *)
Lemma indexImage_withParser parser img imageName path w :
  @resolveName T (withParser X parser) imageName = resolveName imageName →
  @indexImage T (withParser X parser) img imageName path w
  = indexImage img imageName path w.
Proof.
  intros Hn. unfold indexImage, indexFresh. rewrite Hn. reflexivity.
Qed.

(** C9: with the empty string as image name [indexImage] does not depend
    on the reference parser at all; a document it assembles has the empty
    [Source.Image.Name] and no [Tags]; and an error it returns is the
    wrapped normalization error, never one of the parser. *)
Theorem C9_empty_name_is_not_parsed img path w :
  (∀ parser,
     @indexImage T (withParser X parser) img EmptyString path w
     = indexImage img EmptyString path w)
  ∧ (∀ sbomPath s im err w',
       indexFresh img EmptyString path sbomPath w = (Returned (Some s, im, err), w') →
       types.Name (types.Image (types.SbomSource s)) = EmptyString
       ∧ types.Tags (types.Image (types.SbomSource s)) = None
       ∧ err = None)
  ∧ (∀ sb im err w',
       indexImage img EmptyString path w = (Returned (sb, im, Some err), w') →
       ∃ e, err = Wrapf e "failed to normalize packagess: " EmptyString).
Proof.
  split; [|split].
  - intros parser. apply indexImage_withParser.
    unfold resolveName. by destruct (decide _).
  - intros sp s im err w' Hrun.
    apply indexFresh_success in Hrun
      as (lm & c & m & tps & terr & sps & n' & tag & _ & _ & _ & _ & _ & Hn & -> & _ & -> & _).
    rewrite resolveName_empty in Hn. injection Hn as <- <-.
    rewrite withTags_Name, withTags_Tags by done. done.
  - intros sb im err w' Hrun.
    apply indexImage_cases in Hrun as [(s & _ & [=] & _)|[_ Hrun]].
    apply indexFresh_failure in Hrun as (_ & _ & lm & _ & [(ps & e & _ & ->)|(e & Hne & _)]).
    + by exists e.
    + done.
Qed.

(** C7, as the code has it: on a run that reuses no stored document and whose
    normalization succeeds, a non-empty image name is parsed as a
    reference.  If parsing fails, the run fails with the parser's error
    wrapped as "failed to parse reference: <name>".  Otherwise the
    document's [Source.Image.Name] is [ref.Context().String()], and
    [Tags] holds [ref.Identifier()] alone unless that starts with
    "sha256:", in which case [Tags] is unset.  With go-containerregistry's
    parser, "repo/image:latest" gives the name
    "index.docker.io/repo/image" and the tags ["latest"], and
    "repo/image@sha256:<64 hex>" gives the same name and no tags. *)
Theorem C7_reference_name_and_tags img imageName path w lm sps :
  imageName ≠ EmptyString →
  (∀ s, ¬ CacheHit (filepath_Join path "sbom.json") w s) →
  createLayerMapping img = Returned lm →
  NormalizePackages (types.Packages (syftSbom path lm)) = (sps, None) →
  (∀ ref, name_ParseReference imageName = inl ref →
     NamedAs img imageName path w (Context_String ref)
       (if String.prefix "sha256:" (Identifier ref) then None
        else Some [Identifier ref]))
  ∧ (∀ e, name_ParseReference imageName = inr e →
       FailsWith img imageName path w
         (Wrapf e "failed to parse reference: " imageName))
  ∧ (∀ authority,
       authority name.DefaultRegistry = true →
       name_ParseReference imageName = name.parse authority imageName →
       (imageName = "repo/image:latest" →
        NamedAs img imageName path w "index.docker.io/repo/image" (Some ["latest"]))
       ∧ (imageName = digestReference →
          NamedAs img imageName path w "index.docker.io/repo/image" None)).
Proof.
  intros Hne Hmiss Hlm Hs.
  destruct (createLayerMapping_Returned _ _ Hlm) as (c & m & Hc & Hm).
  destruct (NormalizePackages (types.Packages (trivySbom path lm)))
    as [tps terr] eqn:Ht.
  pose proof (indexFresh_run img imageName path (filepath_Join path "sbom.json")
                w _ _ _ _ _ _ _ Hlm Hc Hm Ht Hs) as Hrun.
  cbn match in Hrun. rewrite <- (indexImage_miss _ _ _ _ Hmiss) in Hrun.
  assert (Hnamed : ∀ ref, name_ParseReference imageName = inl ref →
     NamedAs img imageName path w (Context_String ref)
       (if String.prefix "sha256:" (Identifier ref) then None
        else Some [Identifier ref])).
  { intros ref Hp. unfold resolveName in Hrun.
    destruct (decide (imageName = EmptyString)); [done|].
    rewrite Hp in Hrun. cbn zeta in Hrun.
    eexists _, _. split; [exact Hrun|].
    rewrite withTags_Name, withTags_Tags by done.
    split; [done|]. by destruct (String.prefix _ _). }
  split; [exact Hnamed|]. split.
  - intros e Hp. unfold resolveName in Hrun.
    destruct (decide (imageName = EmptyString)); [done|].
    rewrite Hp in Hrun. by eexists.
  - intros authority Hauth Hlib. split.
    + intros ->. rewrite parse_tag_example in Hlib. apply (Hnamed _ Hlib).
    + intros ->. rewrite (parse_digest_example _ Hauth) in Hlib.
      apply (Hnamed _ Hlib).
Qed.

Lemma resolveName_parsed imageName :
  imageName = EmptyString ∨ (∃ ref, name_ParseReference imageName = inl ref) →
  ∃ imageName' tag, resolveName imageName = inl (imageName', tag).
Proof.
  unfold resolveName. intros [->|[ref Href]].
  - destruct (decide _); [eauto | done].
  - destruct (decide _); [eauto|]. rewrite Href. eauto.
Qed.

(** The error of the first normalization is overwritten by the result of
    the second: the run goes on as if the first had succeeded. *)
Lemma indexFresh_first_normalization_error_dropped
    img imageName path sbomPath w lm tps e1 sps serr :
  createLayerMapping img = Returned lm →
  NormalizePackages (types.Packages (trivySbom path lm)) = (tps, e1) →
  NormalizePackages (types.Packages (syftSbom path lm)) = (sps, serr) →
  indexFresh img imageName path sbomPath w =
    match serr with
    | Some e =>
        (Returned (None, None,
                   Some (Wrapf e "failed to normalize packagess: " imageName)),
         started path w)
    | None =>
        match resolveName imageName with
        | inr e =>
            (Returned (None, None,
                       Some (Wrapf e "failed to parse reference: " imageName)),
             started path w)
        | inl (imageName', tag) =>
            match v1.Image_ConfigFile img, v1.Image_Manifest img with
            | Some c, Some m =>
                let syft := types.setPackages (syftSbom path lm) sps in
                let trivy := types.setPackages (trivySbom path lm) tps in
                let sbom :=
                  withTags
                    (assemble img c m imageName' (MergePackages syft trivy) syft)
                    tag in
                (Returned (Some sbom, Some img, None),
                 persisted sbomPath sbom (started path w))
            | _, _ => (Panicked NilDereference, started path w)
            end
        end
    end.
Proof.
  intros Hlm Ht Hs.
  destruct (createLayerMapping_Returned _ _ Hlm) as (c & m & Hc & Hm).
  rewrite (indexFresh_run _ _ _ _ _ _ _ _ _ _ _ _ Hlm Hc Hm Ht Hs), Hc, Hm.
  done.
Qed.

(** C5: when one engine's result carries an error and no packages and the
    other's carries three packages, on a run that reuses no stored
    document, with a name that parses (or none), a normalizer that accepts
    both lists and a merger that returns the packages of one side when the
    other is empty, [indexImage] succeeds and [Artifacts] holds exactly the
    three packages, in their normalized form.  In general an error returned
    by [indexImage] is the wrapped error of the second normalization or of
    the reference parser; the [Error] of an engine result is never
    returned. *)
Theorem C5_engine_error_is_not_propagated
    img imageName path w lm (good bad : types.IndexResult) p1 p2 p3 q1 q2 q3 e :
  (∀ s, ¬ CacheHit (filepath_Join path "sbom.json") w s) →
  createLayerMapping img = Returned lm →
  (trivySbom path lm = bad ∧ syftSbom path lm = good)
  ∨ (trivySbom path lm = good ∧ syftSbom path lm = bad) →
  types.Error bad = Some e →
  types.Packages bad = [] →
  types.Packages good = [p1; p2; p3] →
  NormalizePackages [] = ([], None) →
  NormalizePackages [p1; p2; p3] = ([q1; q2; q3], None) →
  (∀ a b, types.Packages a = [] → MergePackages a b ≡ₚ types.Packages b) →
  (∀ a b, types.Packages b = [] → MergePackages a b ≡ₚ types.Packages a) →
  imageName = EmptyString ∨ (∃ ref, name_ParseReference imageName = inl ref) →
  (∃ sbom w',
     indexImage img imageName path w = (Returned (Some sbom, Some img, None), w')
     ∧ types.Artifacts sbom ≡ₚ [q1; q2; q3])
  ∧ (∀ img' imageName' path' w0 sb im err w',
       indexImage img' imageName' path' w0 = (Returned (sb, im, Some err), w') →
       sb = None ∧ im = None
       ∧ ∃ lm', createLayerMapping img' = Returned lm'
           ∧ ((∃ ps e0,
                 NormalizePackages (types.Packages (syftSbom path' lm')) = (ps, Some e0)
                 ∧ err = Wrapf e0 "failed to normalize packagess: " imageName')
              ∨ (∃ e0, imageName' ≠ EmptyString
                       ∧ name_ParseReference imageName' = inr e0
                       ∧ err = Wrapf e0 "failed to parse reference: " imageName'))).
Proof.
  intros Hmiss Hlm Hwho Herr Hbad Hgood Hn0 Hn3 Hml Hmr Hname. split.
  - destruct (createLayerMapping_Returned _ _ Hlm) as (c & m & Hc & Hm).
    destruct (resolveName_parsed _ Hname) as (n' & tag & Hres).
    rewrite (indexImage_miss _ _ _ _ Hmiss).
    destruct Hwho as [[Ht Hs]|[Ht Hs]].
    + rewrite (indexFresh_run img imageName path _ w lm c m [] None [q1; q2; q3] None);
        [|done|done|done|by rewrite Ht, Hbad|by rewrite Hs, Hgood].
      rewrite Hres. cbn zeta. eexists _, _. split; [done|].
      rewrite withTags_Artifacts. cbn. by rewrite Hmr.
    + rewrite (indexFresh_run img imageName path _ w lm c m [q1; q2; q3] None [] None);
        [|done|done|done|by rewrite Ht, Hgood|by rewrite Hs, Hbad].
      rewrite Hres. cbn zeta. eexists _, _. split; [done|].
      rewrite withTags_Artifacts. cbn. by rewrite Hml.
  - intros img' imageName' path' w0 sb im err w' Hrun.
    apply indexImage_cases in Hrun as [(s & _ & [=] & _)|[_ Hrun]].
    by apply indexFresh_failure in Hrun.
Qed.

(** C8: let a run assemble a document, encode it and write it to
    sbom.json under the image path.  If decoding what
    [json.MarshalIndent] produced gives back the artifacts and the
    descriptor that were encoded, then any later run on that path that
    finds the file as it was left and has caching enabled returns a stored
    document whose [Artifacts] are those of the assembled one. *)
Theorem C8_cache_round_trip img imageName path w sbom w1 :
  (∀ s js, json_MarshalIndent s = Some js →
     ∃ s', json_Unmarshal js = Some s'
           ∧ types.Artifacts s' = types.Artifacts s
           ∧ types.SbomDescriptor s' = types.SbomDescriptor s) →
  (∀ s, ¬ CacheHit (filepath_Join path "sbom.json") w s) →
  indexImage img imageName path w = (Returned (Some sbom, Some img, None), w1) →
  is_Some (json_MarshalIndent sbom) →
  filepath_Join path "sbom.json" ∉ locked w →
  ∀ img2 imageName2 w2,
    fs w2 !! filepath_Join path "sbom.json" = fs w1 !! filepath_Join path "sbom.json" →
    env w2 !! "ATOMIST_NO_CACHE" = None →
    ∃ s', indexImage img2 imageName2 path w2 = (Returned (Some s', Some img2, None), w2)
          ∧ types.Artifacts s' = types.Artifacts sbom.
Proof.
  intros Hjson Hmiss Hrun [js Hjs] Hfree img2 imageName2 w2 Hfs Henv.
  rewrite (indexImage_miss _ _ _ _ Hmiss) in Hrun.
  apply indexFresh_success in Hrun
    as (lm & c & m & tps & terr & sps & n' & tag & _ & _ & _ & _ & _ & _ & Hdoc & _ & _ & ->).
  destruct (Hjson _ _ Hjs) as (s' & Hdec & Hart & Hdesc).
  exists s'. split; [|done]. apply indexImage_hit. split; [done|].
  exists js. rewrite Hfs. unfold persisted. rewrite Hjs. cbn.
  destruct (decide _) as [|_]; [done|]. cbn. rewrite lookup_insert_eq.
  split; [done|]. split; [done|].
  rewrite Hdesc, Hdoc, withTags_SbomDescriptor. done.
Qed.

(** A freshly assembled document has no vulnerability data. *)
Lemma indexFresh_Vulnerabilities img imageName path sbomPath w s im err w' :
  indexFresh img imageName path sbomPath w = (Returned (Some s, im, err), w') →
  types.Vulnerabilities s = noVulnerabilities.
Proof.
  intros Hrun. apply indexFresh_success in Hrun
    as (lm & c & m & tps & terr & sps & n' & tag & _ & _ & _ & _ & _ & _ & -> & _).
  by rewrite withTags_Vulnerabilities.
Qed.

(** C3, as the code has it: when the per-image pipeline succeeds with a document and
    the vulnerability lookup returns an error, the record sent by
    [indexImageAsync] carries the image, the document exactly as the
    pipeline returned it, and the lookup's error in its [Error] field.  A
    freshly assembled document has its [Vulnerabilities] unset, so these
    stay unset. *)
Theorem C3_enrichment_failure_keeps_sbom image w s img e cves w1 :
  IndexImage image w = (Returned (Some s, Some img, None), w1) →
  query_QueryCves (Some s) EmptyString EmptyString EmptyString
  = Returned (cves, Some e) →
  indexImageAsync image w
  = (Returned {| Input := image; Image := Some img; Sbom := Some s;
                 Error := Some e |}, w1)
  ∧ (∀ img' imageName path sbomPath w0 im err w0',
       indexFresh img' imageName path sbomPath w0 = (Returned (Some s, im, err), w0') →
       types.Vulnerabilities s = noVulnerabilities).
Proof.
  intros Hrun Hq. split.
  - unfold indexImageAsync. run. rewrite Hrun, Hq. done.
  - intros. by eapply indexFresh_Vulnerabilities.
Qed.

(** When the image cannot be saved, what [indexImageAsync] does is decided
    by the vulnerability lookup on a nil document alone: the error of the
    pipeline does not reach the record. *)
Lemma indexImageAsync_after_failure image w img0 path0 e w1 :
  registry_SaveImage image w = (Returned (img0, path0, Some e), w1) →
  indexImageAsync image w =
    match query_QueryCves None EmptyString EmptyString EmptyString with
    | Returned (_, Some e') =>
        (Returned {| Input := image; Image := None; Sbom := None;
                     Error := Some e' |}, w1)
    | Returned (_, None) => (Panicked NilDereference, w1)
    | Panicked p => (Panicked p, w1)
    end.
Proof.
  intros Hsave. unfold indexImageAsync, IndexImage. run. rewrite Hsave.
  destruct (query_QueryCves None _ _ _) as [[cves [e'|]]|p]; [done| |done].
  by destruct cves.
Qed.

End IndexFacts.

(** ** The properties on concrete runs *)

#[local] Existing Instance Demo.demoTypes.

(** C6, as stated, fails: an image whose two layers have the same diff id
    has aligned lists of equal length, yet [OrdinalByDiffId] sends the diff
    id of layer 0 to ordinal 1 and the maps keyed by diff id have one entry,
    not two.  A repeated digest breaks the other round trip in the same
    way. *)
Lemma C6_counterexample_repeated_diff_id :
  (∃ c m lm,
     v1.Image_ConfigFile Demo.twinImage = Some c
     ∧ v1.Image_Manifest Demo.twinImage = Some m
     ∧ length (v1.DiffIDs (v1.RootFS c)) = length (v1.Layers m)
     ∧ createLayerMapping Demo.twinImage = Returned lm
     ∧ intAt (OrdinalByDiffId lm) (strAt (DiffIdByOrdinal lm) 0) = 1
     ∧ size (ByDiffId lm) = 1%nat
     ∧ (Bidirectional lm (length (v1.Layers m)) → False))
  ∧ (∃ lm,
       createLayerMapping Demo.twinDigestImage = Returned lm
       ∧ strAt (ByDigest lm) (strAt (DigestByOrdinal lm) 0) = "sha256:a2"
       ∧ strAt (DiffIdByOrdinal lm) 0 = "sha256:a1"
       ∧ size (ByDigest lm) = 1%nat).
Proof.
  split.
  - eexists _, _, _. split; [reflexivity|]. split; [reflexivity|].
    split; [reflexivity|]. split; [reflexivity|].
    split; [by vm_compute|]. split; [by vm_compute|].
    intros [Hrt _]. destruct (Hrt 0%nat) as [_ Hord]; [cbn; lia|].
    vm_compute in Hord. discriminate Hord.
  - eexists. split; [reflexivity|]. by vm_compute.
Qed.

(** C6 on an image of two distinct layers. *)
Lemma C6_witness :
  ∃ lm, createLayerMapping Demo.image = Returned lm ∧ Bidirectional lm 2.
Proof.
  apply (C6_layer_mapping_bidirectional Demo.image _ _ eq_refl eq_refl eq_refl).
  - apply (bool_decide_unpack _). by vm_compute.
  - apply (bool_decide_unpack _). by vm_compute.
Defined.

(** C10 on an image with one diff id and two layers. *)
Lemma C10_witness :
  ((∃ lm, createLayerMapping Demo.shortImage = Returned lm) ↔ (2 ≤ 1)%nat)
  ∧ (createLayerMapping Demo.shortImage = Panicked IndexOutOfRange ↔ (1 < 2)%nat).
Proof.
  exact (C10_createLayerMapping_total_iff Demo.shortImage _ _ eq_refl eq_refl).
Defined.

(** The empty world holds no document to reuse. *)
Lemma emptyWorld_miss `{X : Externals} sbomPath s :
  ¬ CacheHit sbomPath Demo.emptyWorld s.
Proof. intros (_ & b & Hfs & _). cbn in Hfs. by rewrite lookup_empty in Hfs. Qed.

(** C2 on a concrete run: the first engine's list cannot be normalized, the
    second engine's can.  [indexImage] returns a document and no error; only
    when the second list fails does it return the wrapped error. *)
Theorem C2_first_normalization_failure_is_ignored :
  let first := Demo.externals Demo.trivyUnresolved Demo.syftFound None Demo.failingQuery in
  let second := Demo.externals Demo.trivyFound Demo.syftUnresolved None Demo.failingQuery in
  @NormalizePackages _ first (types.Packages Demo.trivyUnresolved)
  = ([], Some (ErrorString "unresolved layer reference"))
  ∧ (∃ doc w',
       @indexImage _ first Demo.image "repo/image:latest" Demo.imagePath Demo.emptyWorld
       = (Returned (Some doc, Some Demo.image, None), w')
       ∧ types.Artifacts doc = ["bash"; "curl"])
  ∧ (∃ w',
       @indexImage _ second Demo.image "repo/image:latest" Demo.imagePath Demo.emptyWorld
       = (Returned (None, None,
                    Some (Wrapf (ErrorString "unresolved layer reference")
                            "failed to normalize packagess: " "repo/image:latest")),
          w')).
Proof.
  cbv zeta. split; [reflexivity|]. split.
  - eexists _, _. split; [vm_compute; reflexivity | reflexivity].
  - eexists. vm_compute. reflexivity.
Qed.

(** C3, as stated, fails: the pipeline succeeds, the lookup fails, and the
    record carries the document together with the lookup's error in its
    [Error] field. *)
Lemma C3_counterexample_error_field_set :
  ∃ doc w1 r,
    @IndexImage _ (Demo.externals Demo.trivyFound Demo.syftFound None Demo.failingQuery)
      "repo/image:latest" Demo.emptyWorld
    = (Returned (Some doc, Some Demo.image, None), w1)
    ∧ @indexImageAsync _ (Demo.externals Demo.trivyFound Demo.syftFound None Demo.failingQuery)
        "repo/image:latest" Demo.emptyWorld
      = (Returned r, w1)
    ∧ Sbom r = Some doc
    ∧ Error r = Some Demo.lookupError
    ∧ Error r ≠ None.
Proof.
  eexists _, _, _. split; [vm_compute; reflexivity|].
  split; [vm_compute; reflexivity|]. cbn. done.
Qed.

(** C3 on a run whose lookup fails. *)
Lemma C3_witness :
  @indexImageAsync _ (Demo.externals Demo.trivyFound Demo.syftFound None Demo.failingQuery)
    "repo/image:latest" Demo.emptyWorld
  = (Returned {| Input := "repo/image:latest"; Image := Some Demo.image;
                 Sbom := Some Demo.assembledDoc; Error := Some Demo.lookupError |},
     started Demo.imagePath Demo.emptyWorld).
Proof.
  refine (proj1 (C3_enrichment_failure_keeps_sbom
                   (X := Demo.externals Demo.trivyFound Demo.syftFound None Demo.failingQuery)
                   "repo/image:latest" Demo.emptyWorld Demo.assembledDoc Demo.image
                   Demo.lookupError None (started Demo.imagePath Demo.emptyWorld) _ _)).
  - vm_compute. reflexivity.
  - reflexivity.
Defined.

(** C4 on concrete runs.  When the image cannot be downloaded, [IndexImage]
    returns the wrapped download error, but the record sent by
    [indexImageAsync] carries the error of the vulnerability lookup
    instead; when that lookup succeeds on the nil document,
    [indexImageAsync] panics on the nil pointer and sends no record.  The
    same happens to an error from inside [indexImage], here a failed
    normalization, wrapped with the image name. *)
Theorem C4_pipeline_error_is_overwritten :
  let failing := Demo.externals Demo.trivyFound Demo.syftFound None Demo.failingQuery in
  let answering := Demo.externals Demo.trivyFound Demo.syftFound None Demo.answeringQuery in
  let unresolved :=
    Demo.externals Demo.trivyFound Demo.syftUnresolved None Demo.failingQuery in
  @IndexImage _ failing "missing:latest" Demo.emptyWorld
  = (Returned (None, None, Some (Wrap Demo.saveError "failed to download image")),
     Demo.emptyWorld)
  ∧ @indexImageAsync _ failing "missing:latest" Demo.emptyWorld
    = (Returned {| Input := "missing:latest"; Image := None; Sbom := None;
                   Error := Some Demo.lookupError |}, Demo.emptyWorld)
  ∧ Demo.lookupError ≠ Wrap Demo.saveError "failed to download image"
  ∧ @indexImageAsync _ answering "missing:latest" Demo.emptyWorld
    = (Panicked NilDereference, Demo.emptyWorld)
  ∧ @IndexImage _ unresolved "repo/image:latest" Demo.emptyWorld
    = (Returned (None, None,
                 Some (Wrapf (ErrorString "unresolved layer reference")
                         "failed to normalize packagess: " "repo/image:latest")),
       started Demo.imagePath Demo.emptyWorld)
  ∧ @indexImageAsync _ unresolved "repo/image:latest" Demo.emptyWorld
    = (Returned {| Input := "repo/image:latest"; Image := None; Sbom := None;
                   Error := Some Demo.lookupError |},
       started Demo.imagePath Demo.emptyWorld).
Proof.
  cbv zeta. split; [reflexivity|]. split; [reflexivity|]. split; [done|].
  split; [reflexivity|]. split; [vm_compute; reflexivity|]. vm_compute. reflexivity.
Qed.

(** The merger of the examples returns one side when the other is empty. *)
Lemma demo_merge_left_empty (a b : types.IndexResult) :
  types.Packages a = [] → Demo.merge a b ≡ₚ types.Packages b.
Proof. intros Ha. unfold Demo.merge. by rewrite Ha. Qed.

Lemma demo_merge_right_empty (a b : types.IndexResult) :
  types.Packages b = [] → Demo.merge a b ≡ₚ types.Packages a.
Proof.
  intros Hb. unfold Demo.merge. rewrite Hb.
  destruct (types.Packages a) as [|p ps]; [done|].
  cbn. by rewrite app_nil_r.
Qed.

(** C5 on two runs: the first engine failed, then the second. *)
Lemma C5_witness :
  (∃ sbom w',
     @indexImage _ (Demo.externals Demo.trivyFailed Demo.threeFound None Demo.failingQuery)
       Demo.image "repo/image:latest" Demo.imagePath Demo.emptyWorld
     = (Returned (Some sbom, Some Demo.image, None), w')
     ∧ types.Artifacts sbom ≡ₚ ["bash"; "curl"; "zlib"])
  ∧ (∃ sbom w',
       @indexImage _ (Demo.externals Demo.threeFound Demo.syftFailed None Demo.failingQuery)
         Demo.image EmptyString Demo.imagePath Demo.emptyWorld
       = (Returned (Some sbom, Some Demo.image, None), w')
       ∧ types.Artifacts sbom ≡ₚ ["bash"; "curl"; "zlib"]).
Proof.
  split.
  - refine (proj1 (C5_engine_error_is_not_propagated
                     (X := Demo.externals Demo.trivyFailed Demo.threeFound None
                             Demo.failingQuery)
                     Demo.image "repo/image:latest" Demo.imagePath Demo.emptyWorld
                     _ Demo.threeFound Demo.trivyFailed "bash" "curl" "zlib"
                     "bash" "curl" "zlib" (ErrorString "trivy: exit status 1")
                     (λ s, emptyWorld_miss _ s) eq_refl
                     (or_introl (conj eq_refl eq_refl))
                     eq_refl eq_refl eq_refl eq_refl eq_refl
                     demo_merge_left_empty demo_merge_right_empty
                     (or_intror (ex_intro _ _ (parse_tag_example _))))).
  - refine (proj1 (C5_engine_error_is_not_propagated
                     (X := Demo.externals Demo.threeFound Demo.syftFailed None
                             Demo.failingQuery)
                     Demo.image EmptyString Demo.imagePath Demo.emptyWorld
                     _ Demo.threeFound Demo.syftFailed "bash" "curl" "zlib"
                     "bash" "curl" "zlib" (ErrorString "syft: exit status 1")
                     (λ s, emptyWorld_miss _ s) eq_refl
                     (or_intror (conj eq_refl eq_refl))
                     eq_refl eq_refl eq_refl eq_refl eq_refl
                     demo_merge_left_empty demo_merge_right_empty
                     (or_introl eq_refl))).
Defined.

(** C7, as stated, fails twice.  With go-containerregistry's parser the
    name set for "repo/image:latest" is "index.docker.io/repo/image", not
    "repo/image".  And a name that cannot be parsed does not make the run
    fail when a stored document is reused: the name is not parsed at all and
    the stored document is returned. *)
Lemma C7_counterexample_name_and_reuse :
  (∃ doc w',
     @indexImage _ (Demo.externals Demo.trivyFound Demo.syftFound None Demo.failingQuery)
       Demo.image "repo/image:latest" Demo.imagePath Demo.emptyWorld
     = (Returned (Some doc, Some Demo.image, None), w')
     ∧ types.Name (types.Image (types.SbomSource doc)) = "index.docker.io/repo/image"
     ∧ types.Name (types.Image (types.SbomSource doc)) ≠ "repo/image")
  ∧ (@name_ParseReference _ Demo.storedExternals "Repo/Image"
     = inr (ErrorString "could not parse reference: Repo/Image")
     ∧ @indexImage _ Demo.storedExternals Demo.image "Repo/Image" Demo.imagePath
         Demo.cachedWorld
       = (Returned (Some Demo.storedDoc, Some Demo.image, None), Demo.cachedWorld)).
Proof.
  split.
  - eexists _, _. split; [vm_compute; reflexivity|]. split; [reflexivity | done].
  - split; [reflexivity|]. vm_compute. reflexivity.
Qed.

(** C7 on a tag reference, a digest reference and a name that does not
    parse, each on a run that finds no stored document. *)
Lemma C7_witness :
  NamedAs (X := Demo.externals Demo.trivyFound Demo.syftFound None Demo.failingQuery)
    Demo.image "repo/image:latest" Demo.imagePath Demo.emptyWorld
    "index.docker.io/repo/image" (Some ["latest"])
  ∧ NamedAs (X := Demo.externals Demo.trivyFound Demo.syftFound None Demo.failingQuery)
      Demo.image digestReference Demo.imagePath Demo.emptyWorld
      "index.docker.io/repo/image" None
  ∧ FailsWith (X := Demo.externals Demo.trivyFound Demo.syftFound None Demo.failingQuery)
      Demo.image "Repo/Image" Demo.imagePath Demo.emptyWorld
      (Wrapf (ErrorString "could not parse reference: Repo/Image")
         "failed to parse reference: " "Repo/Image").
Proof.
  split; [|split].
  - refine (proj1 (proj2 (proj2 (C7_reference_name_and_tags
             (X := Demo.externals Demo.trivyFound Demo.syftFound None Demo.failingQuery)
             Demo.image "repo/image:latest" Demo.imagePath Demo.emptyWorld _ _
             _ (λ s, emptyWorld_miss _ s) eq_refl eq_refl))
             (λ _, true) eq_refl eq_refl) eq_refl).
    discriminate.
  - refine (proj2 (proj2 (proj2 (C7_reference_name_and_tags
             (X := Demo.externals Demo.trivyFound Demo.syftFound None Demo.failingQuery)
             Demo.image digestReference Demo.imagePath Demo.emptyWorld _ _
             _ (λ s, emptyWorld_miss _ s) eq_refl eq_refl))
             (λ _, true) eq_refl eq_refl) eq_refl).
    discriminate.
  - refine (proj1 (proj2 (C7_reference_name_and_tags
             (X := Demo.externals Demo.trivyFound Demo.syftFound None Demo.failingQuery)
             Demo.image "Repo/Image" Demo.imagePath Demo.emptyWorld _ _
             _ (λ s, emptyWorld_miss _ s) eq_refl eq_refl)) _ eq_refl).
    discriminate.
Defined.

(** The JSON stand-in decodes what it encodes. *)
Lemma demo_codec_round_trip (s : types.Sbom) (js : bytes) :
  @json_MarshalIndent _ Demo.cachingExternals s = Some js →
  ∃ s', @json_Unmarshal _ Demo.cachingExternals js = Some s'
        ∧ types.Artifacts s' = types.Artifacts s
        ∧ types.SbomDescriptor s' = types.SbomDescriptor s.
Proof.
  cbn. destruct (decide (s = Demo.assembledDoc)) as [->|]; [|done].
  intros [= <-]. exists Demo.assembledDoc. split; [reflexivity | done].
Qed.

(** C8 on the world a first run leaves behind. *)
Lemma C8_witness :
  ∃ s',
    @indexImage _ Demo.cachingExternals Demo.image "repo/image:latest" Demo.imagePath
      (written "/cache/img/sbom.json" Demo.assembledBytes
         (started Demo.imagePath Demo.emptyWorld))
    = (Returned (Some s', Some Demo.image, None),
       written "/cache/img/sbom.json" Demo.assembledBytes
         (started Demo.imagePath Demo.emptyWorld))
    ∧ types.Artifacts s' = ["bash"; "curl"; "zlib"].
Proof.
  refine (C8_cache_round_trip (X := Demo.cachingExternals)
            Demo.image "repo/image:latest" Demo.imagePath Demo.emptyWorld
            Demo.assembledDoc
            (written "/cache/img/sbom.json" Demo.assembledBytes
               (started Demo.imagePath Demo.emptyWorld))
            demo_codec_round_trip (λ s, emptyWorld_miss _ s) _ _ _
            Demo.image "repo/image:latest" _ eq_refl eq_refl).
  - vm_compute. reflexivity.
  - eexists. vm_compute. reflexivity.
  - cbn. apply not_elem_of_empty.
Defined.

(** * Further properties of the layer mapping *)

Section MoreInserts.
Context {K V : Type} `{Countable K}.

(** An entry of a map built by insertions was inserted or was there. *)
Lemma inserts_lookup_Some_inv (kvs : list (K * V)) : ∀ m k v,
  inserts kvs m !! k = Some v → (k, v) ∈ kvs ∨ m !! k = Some v.
Proof.
  induction kvs as [|[k0 v0] kvs IH]; intros m k v Hl; [by right|].
  change (inserts kvs (<[k0:=v0]> m) !! k = Some v) in Hl.
  apply IH in Hl as [Hin|Hl].
  - left. apply elem_of_cons. by right.
  - apply lookup_insert_Some in Hl as [[-> ->]|[_ Hl]].
    + left. apply elem_of_cons. by left.
    + by right.
Qed.

(** The last insertion under a key is the one that stays. *)
Lemma inserts_lookup_last (kvs : list (K * V)) : ∀ m j k v,
  kvs !! j = Some (k, v) →
  (∀ j', (j < j')%nat → kvs.*1 !! j' ≠ Some k) →
  inserts kvs m !! k = Some v.
Proof.
  induction kvs as [|[k0 v0] kvs IH]; intros m j k v Hj Hlast; [done|].
  change (inserts kvs (<[k0:=v0]> m) !! k = Some v).
  destruct j as [|j]; cbn in Hj.
  - injection Hj as -> ->.
    rewrite inserts_lookup_notin; [apply lookup_insert_eq|].
    intros Hin. apply list_elem_of_lookup in Hin as [j' Hj'].
    by apply (Hlast (S j')); [lia|].
  - apply (IH _ j); [done|]. intros j' Hlt. apply (Hlast (S j')). lia.
Qed.

End MoreInserts.

Lemma elem_of_zip_lookup_inv {A B} (l : list A) (k : list B) a b :
  (a, b) ∈ zip l k → ∃ i, l !! i = Some a ∧ k !! i = Some b.
Proof.
  intros Hin. apply list_elem_of_lookup in Hin as [i Hi]. exists i.
  apply lookup_zip_with_Some in Hi as (x & y & [= -> ->] & Hx & Hy). done.
Qed.

Lemma lookup_ordinals i n j :
  (j < n)%nat → ordinals i n !! j = Some (Z.of_nat (i + j)).
Proof.
  intros Hj. unfold ordinals. by rewrite list_lookup_fmap, lookup_seq_lt.
Qed.

Lemma elem_of_ordinals n (k : Z) :
  k ∈ ordinals 0 n ↔ 0 ≤ k < Z.of_nat n.
Proof.
  unfold ordinals. rewrite list_elem_of_fmap. split.
  - intros (j & -> & Hj). apply elem_of_seq in Hj. lia.
  - intros Hk. exists (Z.to_nat k). split; [lia|]. apply elem_of_seq. lia.
Qed.

Section MappingOf.
Variables (img : v1.Image) (c : v1.ConfigFile) (m : v1.Manifest)
          (lm : LayerMapping).
Hypothesis Hc : v1.Image_ConfigFile img = Some c.
Hypothesis Hm : v1.Image_Manifest img = Some m.
Hypothesis Hlm : createLayerMapping img = Returned lm.

Local Abbreviation n := (length (v1.Layers m)).
Local Abbreviation dS := (usedDiffKeys c m).
Local Abbreviation gS := (layerDigestKeys m).
Local Abbreviation os := (ordinals 0 n).

(** The five maps as insertions in layer order, one per layer. *)
Lemma createLayerMapping_inserts :
  length dS = n ∧ length gS = n ∧ length os = n
  ∧ ByDiffId lm = inserts (zip dS gS) ∅
  ∧ ByDigest lm = inserts (zip gS dS) ∅
  ∧ OrdinalByDiffId lm = inserts (zip dS os) ∅
  ∧ DiffIdByOrdinal lm = inserts (zip os dS) ∅
  ∧ DigestByOrdinal lm = inserts (zip os gS) ∅.
Proof.
  unfold createLayerMapping in Hlm. rewrite Hc, Hm in Hlm.
  assert (Hle : (n ≤ length (v1.DiffIDs (v1.RootFS c)))%nat).
  { pose proof (proj1 (fillLayers_total _ _ 0 emptyLayerMapping)
                  (ex_intro _ lm Hlm)). lia. }
  apply fillLayers_inserts in Hlm. cbn zeta in Hlm. rewrite drop_0 in Hlm.
  split; [|split; [|split]].
  - unfold usedDiffKeys, diffKeys. by rewrite length_fmap, length_take_le.
  - unfold layerDigestKeys, digestKeys. by rewrite length_fmap.
  - unfold ordinals. by rewrite length_fmap, length_seq.
  - exact Hlm.
Qed.

(** An entry under a key that is an ordinal. *)
Lemma ordinal_lookup_of_index (vs : list string) (i : nat) (v : string) :
  length vs = n → vs !! i = Some v →
  inserts (zip os vs) ∅ !! Z.of_nat i = Some v.
Proof.
  intros Hlen Hv. pose proof (lookup_lt_Some _ _ _ Hv) as Hi.
  destruct createLayerMapping_inserts as (_ & _ & Hos & _).
  apply inserts_lookup; [rewrite fst_zip by lia; apply NoDup_ordinals|].
  apply (elem_of_zip_lookup _ _ i); [|done].
  rewrite lookup_ordinals by lia. done.
Qed.

(** The two maps keyed by ordinal, at any key. *)
Lemma ordinal_maps_lookup (k : Z) :
  DiffIdByOrdinal lm !! k
  = (if decide (0 ≤ k < Z.of_nat n) then dS !! Z.to_nat k else None)
  ∧ DigestByOrdinal lm !! k
    = (if decide (0 ≤ k < Z.of_nat n) then gS !! Z.to_nat k else None).
Proof.
  destruct createLayerMapping_inserts as (HdS & HgS & Hos & _ & _ & _ & E4 & E5).
  rewrite E4, E5. destruct (decide (0 ≤ k < Z.of_nat n)) as [Hk|Hk].
  - assert (Hj : (Z.to_nat k < n)%nat) by lia.
    destruct (lookup_lt_is_Some_2 dS (Z.to_nat k)) as [d Hd]; [lia|].
    destruct (lookup_lt_is_Some_2 gS (Z.to_nat k)) as [g Hg]; [lia|].
    pose proof (lookup_ordinals 0 n _ Hj) as Ho.
    replace (Z.of_nat (0 + Z.to_nat k)) with k in Ho by lia.
    rewrite Hd, Hg. split.
    + apply inserts_lookup;
        [rewrite fst_zip by lia; apply NoDup_ordinals
        |by apply (elem_of_zip_lookup _ _ (Z.to_nat k))].
    + apply inserts_lookup;
        [rewrite fst_zip by lia; apply NoDup_ordinals
        |by apply (elem_of_zip_lookup _ _ (Z.to_nat k))].
  - split; (rewrite inserts_lookup_notin; [apply lookup_empty|]);
      rewrite fst_zip by lia; by rewrite elem_of_ordinals.
Qed.

End MappingOf.

Lemma inserts_is_Some {K V} `{Countable K} (kvs : list (K * V)) (k : K) :
  is_Some (inserts kvs (∅ : gmap K V) !! k) ↔ k ∈ kvs.*1.
Proof.
  rewrite <- elem_of_dom, inserts_dom, dom_empty_L, (right_id_L ∅ (∪)).
  apply elem_of_list_to_set.
Qed.

(** X1: the two maps keyed by ordinal are exact, whatever the layers: at
    ordinal [k] they hold the diff id and the digest of layer [k] when
    [0 <= k < len(layers)] and nothing otherwise, so each has one entry per
    layer. *)
Theorem X1_ordinal_maps_exact (img : v1.Image) c m lm :
  v1.Image_ConfigFile img = Some c →
  v1.Image_Manifest img = Some m →
  createLayerMapping img = Returned lm →
  (∀ k : Z,
     DiffIdByOrdinal lm !! k
     = (if decide (0 ≤ k < Z.of_nat (length (v1.Layers m)))
        then usedDiffKeys c m !! Z.to_nat k else None)
     ∧ DigestByOrdinal lm !! k
       = (if decide (0 ≤ k < Z.of_nat (length (v1.Layers m)))
          then layerDigestKeys m !! Z.to_nat k else None))
  ∧ size (DiffIdByOrdinal lm) = length (v1.Layers m)
  ∧ size (DigestByOrdinal lm) = length (v1.Layers m).
Proof.
  intros Hc Hm Hlm.
  destruct (createLayerMapping_inserts img c m lm Hc Hm Hlm)
    as (HdS & HgS & Hos & _ & _ & _ & E4 & E5).
  split; [exact (ordinal_maps_lookup img c m lm Hc Hm Hlm)|]. split.
  - rewrite E4, inserts_size;
      [rewrite length_zip, map_size_empty; lia
      |rewrite fst_zip by lia; apply NoDup_ordinals
      |intros; apply lookup_empty].
  - rewrite E5, inserts_size;
      [rewrite length_zip, map_size_empty; lia
      |rewrite fst_zip by lia; apply NoDup_ordinals
      |intros; apply lookup_empty].
Qed.

(** X2: every entry of the three maps keyed by a hash comes from a layer,
    repeated layers or not: [DiffIdByOrdinal[OrdinalByDiffId[d]] == d], and
    whenever [ByDiffId[d] == g] or [ByDigest[g] == d] some ordinal carries
    the diff id [d] and the digest [g]. *)
Theorem X2_hash_entries_come_from_layers (img : v1.Image) c m lm :
  v1.Image_ConfigFile img = Some c →
  v1.Image_Manifest img = Some m →
  createLayerMapping img = Returned lm →
  (∀ d k, OrdinalByDiffId lm !! d = Some k → DiffIdByOrdinal lm !! k = Some d)
  ∧ (∀ d g, ByDiffId lm !! d = Some g →
       ∃ i : nat, DiffIdByOrdinal lm !! Z.of_nat i = Some d
                  ∧ DigestByOrdinal lm !! Z.of_nat i = Some g)
  ∧ (∀ g d, ByDigest lm !! g = Some d →
       ∃ i : nat, DiffIdByOrdinal lm !! Z.of_nat i = Some d
                  ∧ DigestByOrdinal lm !! Z.of_nat i = Some g).
Proof.
  intros Hc Hm Hlm.
  destruct (createLayerMapping_inserts img c m lm Hc Hm Hlm)
    as (HdS & HgS & Hos & E1 & E2 & E3 & E4 & E5).
  rewrite E1, E2, E3, E4, E5. split; [|split].
  - intros d k Hl. apply inserts_lookup_Some_inv in Hl as [Hin|Hl]; [|done].
    apply elem_of_zip_lookup_inv in Hin as (i & Hd & Ho).
    pose proof (lookup_lt_Some _ _ _ Hd) as Hi.
    rewrite lookup_ordinals in Ho by lia. injection Ho as <-.
    by apply (ordinal_lookup_of_index img c m lm Hc Hm Hlm).
  - intros d g Hl. apply inserts_lookup_Some_inv in Hl as [Hin|Hl]; [|done].
    apply elem_of_zip_lookup_inv in Hin as (i & Hd & Hg). exists i.
    split; by apply (ordinal_lookup_of_index img c m lm Hc Hm Hlm).
  - intros g d Hl. apply inserts_lookup_Some_inv in Hl as [Hin|Hl]; [|done].
    apply elem_of_zip_lookup_inv in Hin as (i & Hg & Hd). exists i.
    split; by apply (ordinal_lookup_of_index img c m lm Hc Hm Hlm).
Qed.

(** X3: the keys of the maps are the hashes of the layers and nothing else:
    [ByDiffId] and [OrdinalByDiffId] have an entry for [d] exactly when [d]
    is the diff id of a layer, and [ByDigest] has one for [g] exactly when
    [g] is the digest of a layer; any other key is missing. *)
Theorem X3_keys_are_the_layer_hashes (img : v1.Image) c m lm :
  v1.Image_ConfigFile img = Some c →
  v1.Image_Manifest img = Some m →
  createLayerMapping img = Returned lm →
  (∀ d, is_Some (ByDiffId lm !! d) ↔ d ∈ (usedDiffKeys c m))
  ∧ (∀ d, is_Some (OrdinalByDiffId lm !! d) ↔ d ∈ (usedDiffKeys c m))
  ∧ (∀ g, is_Some (ByDigest lm !! g) ↔ g ∈ (layerDigestKeys m)).
Proof.
  intros Hc Hm Hlm.
  destruct (createLayerMapping_inserts img c m lm Hc Hm Hlm)
    as (HdS & HgS & Hos & E1 & E2 & E3 & _).
  rewrite E1, E2, E3. split; [|split]; intros k.
  - by rewrite inserts_is_Some, fst_zip by lia.
  - by rewrite inserts_is_Some, fst_zip by lia.
  - by rewrite inserts_is_Some, fst_zip by lia.
Qed.

(** X4: when a diff id or a digest occurs in several layers, the last of
    them is the one the maps record: for a layer [j] whose diff id [d] no
    later layer has, [OrdinalByDiffId[d] == j] and [ByDiffId[d]] is the
    digest of layer [j]; for a layer [j] whose digest [g] no later layer
    has, [ByDigest[g]] is the diff id of layer [j]. *)
Theorem X4_last_layer_wins (img : v1.Image) c m lm (j : nat) (d g : string) :
  v1.Image_ConfigFile img = Some c →
  v1.Image_Manifest img = Some m →
  createLayerMapping img = Returned lm →
  usedDiffKeys c m !! j = Some d →
  layerDigestKeys m !! j = Some g →
  ((∀ j', (j < j')%nat → usedDiffKeys c m !! j' ≠ Some d) →
   OrdinalByDiffId lm !! d = Some (Z.of_nat j) ∧ ByDiffId lm !! d = Some g)
  ∧ ((∀ j', (j < j')%nat → layerDigestKeys m !! j' ≠ Some g) →
     ByDigest lm !! g = Some d).
Proof.
  intros Hc Hm Hlm.
  intros Hd Hg.
  destruct (createLayerMapping_inserts img c m lm Hc Hm Hlm)
    as (HdS & HgS & Hos & E1 & E2 & E3 & _).
  pose proof (lookup_lt_Some _ _ _ Hd) as Hj.
  rewrite E1, E2, E3. split.
  - intros Hlast. split.
    + apply (inserts_lookup_last _ _ j).
      * rewrite lookup_zip_with, Hd. cbn. rewrite lookup_ordinals by lia. done.
      * by rewrite fst_zip by lia.
    + apply (inserts_lookup_last _ _ j).
      * rewrite lookup_zip_with, Hd. cbn. by rewrite Hg.
      * by rewrite fst_zip by lia.
  - intros Hlast. apply (inserts_lookup_last _ _ j).
    + rewrite lookup_zip_with, Hg. cbn. by rewrite Hd.
    + by rewrite fst_zip by lia.
Qed.

(** X5: when no layer repeats a diff id or a digest, [ByDiffId] and
    [ByDigest] are inverse to each other, and [ByDiffId] takes the diff id
    at an ordinal to the digest at that ordinal. *)
Theorem X5_ByDiffId_inverts_ByDigest (img : v1.Image) c m lm :
  v1.Image_ConfigFile img = Some c →
  v1.Image_Manifest img = Some m →
  createLayerMapping img = Returned lm →
  NoDup (usedDiffKeys c m) → NoDup (layerDigestKeys m) →
  (∀ d g, ByDiffId lm !! d = Some g ↔ ByDigest lm !! g = Some d)
  ∧ (∀ (i : nat) d,
       DiffIdByOrdinal lm !! Z.of_nat i = Some d →
       ByDiffId lm !! d = DigestByOrdinal lm !! Z.of_nat i).
Proof.
  intros Hc Hm Hlm.
  intros Hnd Hng.
  destruct (createLayerMapping_inserts img c m lm Hc Hm Hlm)
    as (HdS & HgS & Hos & E1 & E2 & E3 & E4 & E5).
  split.
  - intros d g. rewrite E1, E2. split; intros Hl.
    + apply inserts_lookup_Some_inv in Hl as [Hin|Hl]; [|done].
      apply elem_of_zip_lookup_inv in Hin as (i & Hd & Hg).
      apply inserts_lookup; [by rewrite fst_zip by lia|].
      by apply (elem_of_zip_lookup _ _ i).
    + apply inserts_lookup_Some_inv in Hl as [Hin|Hl]; [|done].
      apply elem_of_zip_lookup_inv in Hin as (i & Hg & Hd).
      apply inserts_lookup; [by rewrite fst_zip by lia|].
      by apply (elem_of_zip_lookup _ _ i).
  - intros i d Hl.
    destruct (ordinal_maps_lookup img c m lm Hc Hm Hlm (Z.of_nat i)) as [Hdi Hgi].
    rewrite Hdi in Hl. rewrite Hgi.
    destruct (decide (0 ≤ Z.of_nat i < Z.of_nat (length (v1.Layers m)))) as [Hi|]; [|done].
    rewrite Nat2Z.id in *.
    destruct (lookup_lt_is_Some_2 (layerDigestKeys m) i) as [g Hg]; [lia|].
    rewrite Hg, E1. apply inserts_lookup; [by rewrite fst_zip by lia|].
    by apply (elem_of_zip_lookup _ _ i).
Qed.

Lemma fillLayers_take : ∀ rest ds i lm,
  fillLayers ds i rest lm = fillLayers (take (i + length rest) ds) i rest lm.
Proof.
  induction rest as [|layer rest IH]; intros ds i lm; cbn; [done|].
  rewrite lookup_take_lt by lia.
  destruct (ds !! i) as [d|]; [|done].
  rewrite (IH ds). symmetry.
  rewrite (IH (take (i + S (length rest)) ds)), take_take.
  by replace (Nat.min (S i + length rest) (i + S (length rest)))
    with (S i + length rest)%nat by lia.
Qed.

(** X6: only the first [len(layers)] diff ids of the config are read: two
    images with the same manifest whose diff ids agree on that prefix get
    the same result, be it a mapping or a panic. *)
Theorem X6_only_a_prefix_of_the_diff_ids_is_read
    (img1 img2 : v1.Image) c1 c2 m :
  v1.Image_ConfigFile img1 = Some c1 →
  v1.Image_ConfigFile img2 = Some c2 →
  v1.Image_Manifest img1 = Some m →
  v1.Image_Manifest img2 = Some m →
  take (length (v1.Layers m)) (v1.DiffIDs (v1.RootFS c1))
  = take (length (v1.Layers m)) (v1.DiffIDs (v1.RootFS c2)) →
  createLayerMapping img1 = createLayerMapping img2.
Proof.
  intros Hc1 Hc2 Hm1 Hm2 Htake. unfold createLayerMapping.
  rewrite Hc1, Hc2, Hm1, Hm2.
  rewrite (fillLayers_take _ (v1.DiffIDs (v1.RootFS c1))),
          (fillLayers_take _ (v1.DiffIDs (v1.RootFS c2))).
  cbn. by rewrite Htake.
Qed.

(** * Further properties of the per-image pipeline *)

Section MoreIndexFacts.
Context {T : OpaqueTypes} {X : Externals}.

(** A fresh run panics exactly as [createLayerMapping] does, before
    anything else happens. *)
Lemma indexFresh_panics img imageName path sbomPath w pk w' :
  indexFresh img imageName path sbomPath w = (Panicked pk, w')
  ↔ createLayerMapping img = Panicked pk ∧ w' = w.
Proof.
  split.
  - destruct (createLayerMapping img) as [lm|p] eqn:Hlm.
    + destruct (createLayerMapping_Returned _ _ Hlm) as (c & m & Hc & Hm).
      destruct (NormalizePackages (types.Packages (trivySbom path lm)))
        as [tps terr] eqn:Ht.
      destruct (NormalizePackages (types.Packages (syftSbom path lm)))
        as [sps serr] eqn:Hs.
      rewrite (indexFresh_run _ _ _ _ _ _ _ _ _ _ _ _ Hlm Hc Hm Ht Hs).
      destruct serr; [done|]. by destruct (resolveName imageName) as [[? ?]|?].
    + unfold indexFresh. run. rewrite Hlm. by intros [= -> ->].
  - intros [Hlm ->]. unfold indexFresh. run. by rewrite Hlm.
Qed.

(** X7: [indexImage] panics exactly when it reuses no stored document and
    the layer mapping cannot be built; it then has started no engine and
    written nothing.  The mapping fails on a nil pointer exactly when the
    image yields no config or no manifest. *)
Theorem X7_indexImage_panics_iff img imageName path w pk w' :
  (indexImage img imageName path w = (Panicked pk, w')
   ↔ (∀ s, ¬ CacheHit (filepath_Join path "sbom.json") w s)
     ∧ createLayerMapping img = Panicked pk ∧ w' = w)
  ∧ (createLayerMapping img = Panicked NilDereference
     ↔ v1.Image_ConfigFile img = None ∨ v1.Image_Manifest img = None).
Proof.
  split.
  - split.
    + intros Hrun. apply indexImage_cases in Hrun as [(s & _ & [=] & _)|[Hmiss Hrun]].
      apply indexFresh_panics in Hrun. tauto.
    + intros (Hmiss & Hlm & ->). rewrite (indexImage_miss _ _ _ _ Hmiss).
      by apply indexFresh_panics.
  - unfold createLayerMapping.
    destruct (v1.Image_ConfigFile img) as [c|]; [|by split; [left|]].
    destruct (v1.Image_Manifest img) as [m|]; [|by split; [right|]].
    split; [|by intros [|]].
    intros Hp. by apply fillLayers_panic in Hp.
Qed.

(** What a fresh run returns has one of the two shapes. *)
Lemma indexFresh_DocumentOrError img imageName path sbomPath w r w' :
  indexFresh img imageName path sbomPath w = (Returned r, w') →
  DocumentOrError r.
Proof.
  destruct r as [[[s|] im] [err|]]; intros Hrun.
  - by apply indexFresh_success in Hrun as (? & ? & ? & ? & ? & ? & ? & ? & Hx);
      destruct Hx as (_ & _ & _ & _ & _ & _ & _ & _ & [=] & _).
  - apply indexFresh_success in Hrun
      as (? & ? & ? & ? & ? & ? & ? & ? & _ & _ & _ & _ & _ & _ & _ & -> & _).
    left. eauto.
  - apply indexFresh_failure in Hrun as (_ & -> & _ & _ & [(? & ? & _ & ->)|(? & _ & _ & ->)]);
      right; unfold Wrapf; eauto.
  - exfalso.
    destruct (createLayerMapping img) as [lm|p] eqn:Hlm.
    + destruct (createLayerMapping_Returned _ _ Hlm) as (c & m & Hc & Hm).
      destruct (NormalizePackages (types.Packages (trivySbom path lm)))
        as [tps terr] eqn:Ht.
      destruct (NormalizePackages (types.Packages (syftSbom path lm)))
        as [sps serr] eqn:Hs.
      rewrite (indexFresh_run _ _ _ _ _ _ _ _ _ _ _ _ Hlm Hc Hm Ht Hs) in Hrun.
      destruct serr; [done|]. by destruct (resolveName imageName) as [[? ?]|?].
    + unfold indexFresh in Hrun. run. by rewrite Hlm in Hrun.
Qed.

(** X8: nil-or-error holds for the three entry points: whenever
    [indexImage], [IndexPath] or [IndexImage] returns, it returns either a
    document, the image and a nil error, or a nil document, a nil image and
    an error made by [errors.Wrap] or [errors.Wrapf]. *)
Theorem X8_results_are_document_or_error :
  (∀ img imageName path w r w',
     indexImage img imageName path w = (Returned r, w') → DocumentOrError r)
  ∧ (∀ path name w r w',
       IndexPath path name w = (Returned r, w') → DocumentOrError r)
  ∧ (∀ image w r w',
       IndexImage image w = (Returned r, w') → DocumentOrError r).
Proof.
  assert (Hindex : ∀ img imageName path w r w',
            indexImage img imageName path w = (Returned r, w') → DocumentOrError r).
  { intros img imageName path w r w' Hrun.
    apply indexImage_cases in Hrun as [(s & _ & [= ->] & _)|[_ Hrun]].
    - left. eauto.
    - by eapply indexFresh_DocumentOrError. }
  split; [exact Hindex|]. split.
  - intros path name w r w'. unfold IndexPath. run.
    destruct (registry_ReadImage path w) as [[[img [e|]]|p] w1]; [| |done].
    + intros [= <- _]. right. unfold Wrap. eauto.
    + apply Hindex.
  - intros image w r w'. unfold IndexImage. run.
    destruct (registry_SaveImage image w) as [[[[img path] [e|]]|p] w1]; [| |done].
    + intros [= <- _]. right. unfold Wrap. eauto.
    + apply Hindex.
Qed.

(** The worlds a fresh run can leave behind. *)
Lemma indexFresh_world img imageName path sbomPath w o w' :
  indexFresh img imageName path sbomPath w = (o, w') →
  (w' = w ∧ ∃ pk, o = Panicked pk)
  ∨ (w' = started path w ∧ ∃ e, o = Returned (None, None, Some e))
  ∨ (∃ sbom, o = Returned (Some sbom, Some img, None)
             ∧ w' = persisted sbomPath sbom (started path w)).
Proof.
  destruct o as [[[sb im] err]|pk]; intros Hrun.
  - pose proof (indexFresh_DocumentOrError _ _ _ _ _ _ _ Hrun)
      as [(s & i & [= -> -> ->])|(e & msg & [= -> -> ->])].
    + right. right. apply indexFresh_success in Hrun
        as (? & ? & ? & ? & ? & ? & ? & ? & _ & _ & _ & _ & _ & _ & _ & [= ->] & _ & ->).
      eauto.
    + right. left. split; [|eauto].
      destruct (createLayerMapping img) as [lm|p] eqn:Hlm.
      * destruct (createLayerMapping_Returned _ _ Hlm) as (c & m & Hc & Hm).
        destruct (NormalizePackages (types.Packages (trivySbom path lm)))
          as [tps terr] eqn:Ht.
        destruct (NormalizePackages (types.Packages (syftSbom path lm)))
          as [sps serr] eqn:Hs.
        rewrite (indexFresh_run _ _ _ _ _ _ _ _ _ _ _ _ Hlm Hc Hm Ht Hs) in Hrun.
        destruct serr; [by injection Hrun|].
        destruct (resolveName imageName) as [[? ?]|?]; [done | by injection Hrun].
      * unfold indexFresh in Hrun. run. by rewrite Hlm in Hrun.
  - apply indexFresh_panics in Hrun as [_ ->]. left. eauto.
Qed.

Lemma persisted_frame sbomPath sbom w :
  env (persisted sbomPath sbom w) = env w
  ∧ locked (persisted sbomPath sbom w) = locked w
  ∧ launched (persisted sbomPath sbom w) = launched w
  ∧ fs (persisted sbomPath sbom w)
    = match json_MarshalIndent sbom with
      | Some js =>
          if decide (sbomPath ∈ locked w) then fs w
          else <[sbomPath := File js]> (fs w)
      | None => fs w
      end.
Proof.
  unfold persisted. destruct (json_MarshalIndent sbom) as [js|]; [|done].
  by destruct (decide (sbomPath ∈ locked w)).
Qed.

(** X9: [indexImage] leaves the environment alone and touches no file but
    sbom.json under the image path; when it returns an error it has written
    nothing at all; and it has started either no engine or both, trivy
    first, each once, on the image path. *)
Theorem X9_indexImage_touches_only_its_cache_file img imageName path w :
  env (indexImage img imageName path w).2 = env w
  ∧ locked (indexImage img imageName path w).2 = locked w
  ∧ (∀ file, file ≠ filepath_Join path "sbom.json" →
       fs (indexImage img imageName path w).2 !! file = fs w !! file)
  ∧ (∀ sb im e,
       (indexImage img imageName path w).1 = Returned (sb, im, Some e) →
       fs (indexImage img imageName path w).2 = fs w)
  ∧ (launched (indexImage img imageName path w).2 = launched w
     ∨ launched (indexImage img imageName path w).2
       = (launched w ++ [(Trivy, path); (Syft, path)])%list).
Proof.
  destruct (indexImage img imageName path w) as [o w'] eqn:Hrun. cbn.
  apply indexImage_cases in Hrun as [(s & _ & -> & ->)|[_ Hrun]].
  { repeat split; try done. by left. }
  apply indexFresh_world in Hrun
    as [[-> _]|[[-> [e ->]]|(sbom & -> & ->)]].
  - repeat split; try done. by left.
  - repeat split; try done. by right.
  - destruct (persisted_frame (filepath_Join path "sbom.json") sbom (started path w))
      as (He & Hl & Hla & Hfs).
    rewrite He, Hl, Hla, Hfs. repeat split; try done; [|by right].
    intros file Hne. destruct (json_MarshalIndent sbom); [|done].
    destruct (decide _); [done|]. cbn. by rewrite lookup_insert_ne.
Qed.

(** X10: when the second normalization, that of syft's list, fails on a
    run that reuses no stored document, [indexImage] returns nothing but the
    normalizer's error wrapped with the image name, whatever the name and
    whatever the first normalization did; both engines have run and nothing
    was written. *)
Theorem X10_second_normalization_failure_fails_the_run
    img imageName path w lm ps e :
  (∀ s, ¬ CacheHit (filepath_Join path "sbom.json") w s) →
  createLayerMapping img = Returned lm →
  NormalizePackages (types.Packages (syftSbom path lm)) = (ps, Some e) →
  indexImage img imageName path w
  = (Returned (None, None,
               Some (Wrapf e "failed to normalize packagess: " imageName)),
     started path w).
Proof.
  intros Hmiss Hlm Hs. rewrite (indexImage_miss _ _ _ _ Hmiss).
  destruct (createLayerMapping_Returned _ _ Hlm) as (c & m & Hc & Hm).
  destruct (NormalizePackages (types.Packages (trivySbom path lm)))
    as [tps terr] eqn:Ht.
  by rewrite (indexFresh_run _ _ _ _ _ _ _ _ _ _ _ _ Hlm Hc Hm Ht Hs).
Qed.

(** X12: a run that assembles a document replaces whatever was stored at
    sbom.json by the encoding of that document, provided the document can
    be encoded and the path can be written; otherwise the files are left as
    they were. *)
Theorem X12_fresh_document_overwrites_the_stored_one
    img imageName path w sbom im err w' :
  (∀ s, ¬ CacheHit (filepath_Join path "sbom.json") w s) →
  indexImage img imageName path w = (Returned (Some sbom, im, err), w') →
  fs w' = match json_MarshalIndent sbom with
          | Some js =>
              if decide (filepath_Join path "sbom.json" ∈ locked w) then fs w
              else <[filepath_Join path "sbom.json" := File js]> (fs w)
          | None => fs w
          end.
Proof.
  intros Hmiss Hrun. rewrite (indexImage_miss _ _ _ _ Hmiss) in Hrun.
  apply indexFresh_success in Hrun
    as (? & ? & ? & ? & ? & ? & ? & ? & _ & _ & _ & _ & _ & _ & _ & _ & _ & ->).
  by destruct (persisted_frame (filepath_Join path "sbom.json") sbom (started path w))
    as (_ & _ & _ & ->).
Qed.

(** X14: the [Tags] of an assembled document are never an empty list and
    never hold a digest: they are unset, or hold the one identifier of the
    parsed reference, which then does not start with "sha256:". *)
Theorem X14_tags_are_unset_or_one_tag img imageName path sbomPath w s im err w' :
  indexFresh img imageName path sbomPath w = (Returned (Some s, im, err), w') →
  types.Tags (types.Image (types.SbomSource s)) = None
  ∨ ∃ ref, imageName ≠ EmptyString
           ∧ name_ParseReference imageName = inl ref
           ∧ String.prefix "sha256:" (Identifier ref) = false
           ∧ types.Tags (types.Image (types.SbomSource s)) = Some [Identifier ref].
Proof.
  intros Hrun. apply indexFresh_success in Hrun
    as (lm & c & m & tps & terr & sps & n' & tag & _ & _ & _ & _ & _ & Hn & -> & _).
  rewrite withTags_Tags by done. unfold resolveName in Hn.
  destruct (decide (imageName = EmptyString)) as [|Hne].
  { injection Hn as <- <-. by left. }
  destruct (name_ParseReference imageName) as [ref|] eqn:Hp; [|done].
  injection Hn as <- <-.
  destruct (String.prefix "sha256:" (Identifier ref)) eqn:Hpre; [by left|].
  right. exists ref. done.
Qed.

(** The value of a fresh run does not depend on the world or on the path
    of the cache file. *)
Lemma indexFresh_outcome img imageName path sbomPath w :
  (indexFresh img imageName path sbomPath w).1 = freshOutcome img imageName path.
Proof.
  unfold freshOutcome.
  destruct (createLayerMapping img) as [lm|p] eqn:Hlm.
  - destruct (createLayerMapping_Returned _ _ Hlm) as (c & m & Hc & Hm).
    destruct (NormalizePackages (types.Packages (trivySbom path lm)))
      as [tps terr] eqn:Ht.
    destruct (NormalizePackages (types.Packages (syftSbom path lm)))
      as [sps serr] eqn:Hs.
    rewrite (indexFresh_run _ _ _ _ _ _ _ _ _ _ _ _ Hlm Hc Hm Ht Hs), Hc, Hm.
    cbn. destruct serr; [done|].
    by destruct (resolveName imageName) as [[? ?]|?].
  - unfold indexFresh. run. by rewrite Hlm.
Qed.

Lemma indexImage_outcome img imageName path w r :
  reusableSbom (filepath_Join path "sbom.json") w = (Returned r, w) →
  (indexImage img imageName path w).1
  = match r with
    | Some s => Returned (Some s, Some img, None)
    | None => freshOutcome img imageName path
    end.
Proof.
  intros Hr. unfold indexImage. unfold mbind, M_bind. rewrite Hr.
  destruct r; [done|]. apply indexFresh_outcome.
Qed.

(** X13: with ATOMIST_NO_CACHE set, to any value, a stored document is
    never looked at: what [indexImage] returns is what the fresh computation
    returns, and it is the same in any two worlds that have the variable
    set, whatever their files hold. *)
Theorem X13_disabled_cache_ignores_the_files img imageName path w1 w2 v1 v2 :
  env w1 !! "ATOMIST_NO_CACHE" = Some v1 →
  env w2 !! "ATOMIST_NO_CACHE" = Some v2 →
  indexImage img imageName path w1
  = indexFresh img imageName path (filepath_Join path "sbom.json") w1
  ∧ (indexImage img imageName path w1).1 = (indexImage img imageName path w2).1.
Proof.
  assert (Hoff : ∀ w0 v0, env w0 !! "ATOMIST_NO_CACHE" = Some v0 →
            ∀ s, ¬ CacheHit (filepath_Join path "sbom.json") w0 s).
  { intros w0 v0 Henv s [Hn _]. congruence. }
  intros Henv1 Henv2. split; [by eapply indexImage_miss, Hoff|].
  rewrite (indexImage_miss _ _ _ _ (Hoff _ _ Henv1)),
          (indexImage_miss _ _ _ _ (Hoff _ _ Henv2)).
  by rewrite !indexFresh_outcome.
Qed.

Lemma resolveName_inl imageName :
  (∃ imageName' tag, resolveName imageName = inl (imageName', tag))
  ↔ imageName = EmptyString ∨ (∃ ref, name_ParseReference imageName = inl ref).
Proof.
  split; [|apply resolveName_parsed].
  unfold resolveName. intros (n' & tag & Hn).
  destruct (decide (imageName = EmptyString)); [by left|].
  destruct (name_ParseReference imageName) as [ref|]; [|done]. right. eauto.
Qed.

(** X19: [indexImage] returns a document exactly when it reuses the stored
    one, or else when the layer mapping can be built, the second
    normalization reports no error, and the image name is empty or parses.
    Nothing else decides success: not what the engines report as their
    error, not the outcome of the first normalization, not the write of the
    cache file. *)
Theorem X19_indexImage_succeeds_iff img imageName path w :
  (∃ s w', indexImage img imageName path w = (Returned (Some s, Some img, None), w'))
  ↔ (∃ s, CacheHit (filepath_Join path "sbom.json") w s)
    ∨ ((∀ s, ¬ CacheHit (filepath_Join path "sbom.json") w s)
       ∧ (∃ lm, createLayerMapping img = Returned lm
                ∧ (NormalizePackages (types.Packages (syftSbom path lm))).2 = None)
       ∧ (imageName = EmptyString
          ∨ ∃ ref, name_ParseReference imageName = inl ref)).
Proof.
  split.
  - intros (s & w' & Hrun).
    apply indexImage_cases in Hrun as [(s0 & Hhit & _)|[Hmiss Hrun]]; [left; eauto|].
    right. split; [done|].
    apply indexFresh_success in Hrun
      as (lm & c & m & tps & terr & sps & n' & tag & Hlm & _ & _ & _ & Hs & Hn & _).
    split.
    + exists lm. by rewrite Hs.
    + apply resolveName_inl. eauto.
  - intros [[s Hhit]|(Hmiss & (lm & Hlm & Hs) & Hname)].
    + exists s, w. by apply indexImage_hit.
    + rewrite (indexImage_miss _ _ _ _ Hmiss).
      destruct (createLayerMapping_Returned _ _ Hlm) as (c & m & Hc & Hm).
      destruct (NormalizePackages (types.Packages (trivySbom path lm)))
        as [tps terr] eqn:Ht.
      destruct (NormalizePackages (types.Packages (syftSbom path lm)))
        as [sps serr] eqn:Hsyft.
      cbn in Hs. subst serr.
      rewrite (indexFresh_run _ _ _ _ _ _ _ _ _ _ _ _ Hlm Hc Hm Ht Hsyft).
      apply resolveName_parsed in Hname as (n' & tag & ->). cbn zeta. eauto.
Qed.

End MoreIndexFacts.

(** X11: what [indexImage] returns never depends on the write of the cache
    file: it is the same whichever paths can be written, and the same
    whether or not the document can be encoded. *)
Theorem X11_result_does_not_depend_on_the_write
    {T : OpaqueTypes} {X : Externals} img imageName path w :
  (∀ paths,
     (indexImage img imageName path (withLocked w paths)).1
     = (indexImage img imageName path w).1)
  ∧ (∀ encode,
       (@indexImage T (withEncoder X encode) img imageName path w).1
       = (indexImage img imageName path w).1).
Proof.
  destruct (reusableSbom_run (filepath_Join path "sbom.json") w) as (r & Hr & Hiff).
  split.
  - intros paths.
    destruct (reusableSbom_run (filepath_Join path "sbom.json") (withLocked w paths))
      as (r' & Hr' & Hiff').
    assert (r' = r) as ->.
    { destruct r' as [s'|], r as [s|]; try done.
      - assert (Some s' = Some s') as Hs by done.
        apply Hiff', Hiff in Hs. by injection Hs as ->.
      - assert (Some s' = Some s') as Hs by done. by apply Hiff', Hiff in Hs.
      - assert (Some s = Some s) as Hs by done.
        apply Hiff in Hs. by apply (Hiff' s) in Hs. }
    by rewrite (indexImage_outcome _ _ _ _ _ Hr'), (indexImage_outcome _ _ _ _ _ Hr).
  - intros encode.
    rewrite (indexImage_outcome (X := withEncoder X encode) img imageName path w r Hr),
            (indexImage_outcome _ _ _ _ _ Hr).
    reflexivity.
Qed.

(** * Further properties of the entry points *)

Section EntryPoints.
Context {T : OpaqueTypes} {X : Externals}.

(** X15: every record [indexImageAsync] sends carries the input name, the
    image of the pipeline, and as [Error] the error of the vulnerability
    lookup, whatever the pipeline's own error was.  When the lookup
    succeeded the record holds the pipeline's document with its
    [Vulnerabilities] replaced by the lookup's answer and nothing else
    changed; when it failed the record holds what the pipeline returned as
    document, untouched.  A record without an error therefore always
    carries a document. *)
Theorem X15_what_a_delivered_record_holds image w r w' :
  indexImageAsync image w = (Returned r, w') →
  ∃ sb im e0 cves qe,
    IndexImage image w = (Returned (sb, im, e0), w')
    ∧ query_QueryCves sb EmptyString EmptyString EmptyString = Returned (cves, qe)
    ∧ Input r = image ∧ Image r = im ∧ Error r = qe
    ∧ match qe with
      | None => ∃ s v, sb = Some s ∧ cves = Some v
                       ∧ Sbom r = Some (types.setVulnerabilities s v)
      | Some _ => Sbom r = sb
      end
    ∧ (∀ s', Sbom r = Some s' →
         ∃ s, sb = Some s
              ∧ types.Artifacts s' = types.Artifacts s
              ∧ types.SbomSource s' = types.SbomSource s
              ∧ types.SbomDescriptor s' = types.SbomDescriptor s).
Proof.
  unfold indexImageAsync. run.
  destruct (IndexImage image w) as [[[[sb im] e0]|p] w1]; [|done].
  destruct (query_QueryCves sb _ _ _) as [[cves [qe|]]|p] eqn:Hq; [| |done].
  - intros [= <- <-]. exists sb, im, e0, cves, (Some qe). cbn.
    repeat split; try done. intros s' ->. eauto.
  - destruct cves as [v|]; [|done]. destruct sb as [s|]; [|done].
    intros [= <- <-]. exists (Some s), im, e0, (Some v), None. cbn.
    repeat split; try done; [eauto|]. intros s' [= <-]. eauto.
Qed.

(** X16: [indexImageAsync] panics, and sends no record, exactly when the
    pipeline panics, when the vulnerability lookup panics, or when the
    lookup reports no error but returned no answer or was made for a
    pipeline that returned no document. *)
Theorem X16_indexImageAsync_panics_iff image w pk w' :
  indexImageAsync image w = (Panicked pk, w')
  ↔ IndexImage image w = (Panicked pk, w')
    ∨ ∃ sb im e0,
        IndexImage image w = (Returned (sb, im, e0), w')
        ∧ (query_QueryCves sb EmptyString EmptyString EmptyString = Panicked pk
           ∨ ∃ cves,
               query_QueryCves sb EmptyString EmptyString EmptyString
               = Returned (cves, None)
               ∧ (cves = None ∨ sb = None) ∧ pk = NilDereference).
Proof.
  unfold indexImageAsync. run.
  destruct (IndexImage image w) as [[[[sb im] e0]|p] w1].
  - destruct (query_QueryCves sb _ _ _) as [[cves [qe|]]|p] eqn:Hq.
    + split; [done|].
      intros [?|(sb' & im' & e0' & Heq & [Hq'|(cves' & Hq' & _)])];
        simplify_eq; congruence.
    + split.
      * intros Hrun. right. exists sb, im, e0.
        destruct cves as [v|].
        -- destruct sb as [s|]; [done|]. run. cbn in Hrun. simplify_eq.
           split; [done|]. right. exists (Some v). auto.
        -- run. cbn in Hrun. simplify_eq.
           split; [done|]. right. exists None. auto.
      * intros [?|(sb' & im' & e0' & Heq & [Hq'|(cves' & Hq' & Hnil & ->)])];
          simplify_eq; [congruence|].
        rewrite Hq in Hq'. simplify_eq.
        destruct Hnil as [->| ->]; [done|]. by destruct cves'.
    + split.
      * intros ?. simplify_eq. right. exists sb, im, e0. auto.
      * intros [?|(sb' & im' & e0' & Heq & [Hq'|(cves' & Hq' & _)])];
          simplify_eq; congruence.
  - split.
    + intros ?. simplify_eq. by left.
    + intros [?|(sb' & im' & e0' & Heq & _)]; by simplify_eq.
Qed.

(** The errors [indexImage] can return, with the world it leaves. *)
Lemma indexImage_failure img imageName path w sb im err w' :
  indexImage img imageName path w = (Returned (sb, im, Some err), w') →
  w' = started path w
  ∧ ((∃ lm ps e,
        createLayerMapping img = Returned lm
        ∧ NormalizePackages (types.Packages (syftSbom path lm)) = (ps, Some e)
        ∧ err = Wrapf e "failed to normalize packagess: " imageName)
     ∨ (∃ e, imageName ≠ EmptyString
             ∧ name_ParseReference imageName = inr e
             ∧ err = Wrapf e "failed to parse reference: " imageName)).
Proof.
  intros Hrun.
  apply indexImage_cases in Hrun as [(s & _ & [=] & _)|[_ Hrun]].
  pose proof (indexFresh_world _ _ _ _ _ _ _ Hrun)
    as [[_ [? ?]]|[[-> _]|(? & ? & _)]]; [simplify_eq| |simplify_eq].
  split; [done|].
  apply indexFresh_failure in Hrun as (_ & _ & lm & Hlm & [(ps & e & Hs & ->)|Hp]).
  - left. by exists lm, ps, e.
  - by right.
Qed.

(** X17: an error returned by [IndexImage] is one of three: the error of
    [registry.SaveImage] wrapped as "failed to download image", in which
    case nothing ran after the download; or, after both engines ran on the
    saved image, the error of the second normalization or of the reference
    parser, each wrapped with the image name. *)
Theorem X17_errors_of_IndexImage image w sb im err w' :
  IndexImage image w = (Returned (sb, im, Some err), w') →
  (∃ img path e,
     registry_SaveImage image w = (Returned (img, path, Some e), w')
     ∧ err = Wrap e "failed to download image")
  ∨ (∃ img path w1,
       registry_SaveImage image w = (Returned (img, path, None), w1)
       ∧ w' = started path w1
       ∧ ((∃ lm ps e,
             createLayerMapping img = Returned lm
             ∧ NormalizePackages (types.Packages (syftSbom path lm)) = (ps, Some e)
             ∧ err = Wrapf e "failed to normalize packagess: " image)
          ∨ (∃ e, image ≠ EmptyString
                  ∧ name_ParseReference image = inr e
                  ∧ err = Wrapf e "failed to parse reference: " image))).
Proof.
  unfold IndexImage. run.
  destruct (registry_SaveImage image w) as [[[[img path] [e|]]|p] w1]; [| |done].
  - intros [= _ _ <- <-]. left. eauto.
  - intros Hrun. right. exists img, path, w1. split; [done|].
    by apply indexImage_failure in Hrun.
Qed.

(** X18: an error returned by [IndexPath] is one of three: the error of
    [registry.ReadImage] wrapped as "failed to read image", in which case
    nothing ran after the read; or, after both engines ran on the given
    path, the error of the second normalization or of the reference parser,
    each wrapped with the given name.  With an empty name the parser's
    error is excluded. *)
Theorem X18_errors_of_IndexPath path name w sb im err w' :
  IndexPath path name w = (Returned (sb, im, Some err), w') →
  (∃ img e,
     registry_ReadImage path w = (Returned (img, Some e), w')
     ∧ err = Wrap e "failed to read image")
  ∨ (∃ img w1,
       registry_ReadImage path w = (Returned (img, None), w1)
       ∧ w' = started path w1
       ∧ ((∃ lm ps e,
             createLayerMapping img = Returned lm
             ∧ NormalizePackages (types.Packages (syftSbom path lm)) = (ps, Some e)
             ∧ err = Wrapf e "failed to normalize packagess: " name)
          ∨ (∃ e, name ≠ EmptyString
                  ∧ name_ParseReference name = inr e
                  ∧ err = Wrapf e "failed to parse reference: " name))).
Proof.
  unfold IndexPath. run.
  destruct (registry_ReadImage path w) as [[[img [e|]]|p] w1]; [| |done].
  - intros [= _ _ <- <-]. left. eauto.
  - intros Hrun. right. exists img, w1. split; [done|].
    by apply indexImage_failure in Hrun.
Qed.

End EntryPoints.

(** ** The further properties on concrete runs *)

(** X1 on the image whose two layers share a diff id. *)
Lemma X1_witness :
  ∃ lm, createLayerMapping Demo.twinImage = Returned lm
        ∧ DiffIdByOrdinal lm !! 1 = Some "sha256:a1"
        ∧ DigestByOrdinal lm !! 1 = Some "sha256:d2"
        ∧ DiffIdByOrdinal lm !! 2 = None
        ∧ DigestByOrdinal lm !! (-1) = None
        ∧ size (DiffIdByOrdinal lm) = 2%nat.
Proof.
  eexists. split; [reflexivity|].
  destruct (X1_ordinal_maps_exact Demo.twinImage _ _ _ eq_refl eq_refl eq_refl)
    as (Hk & Hsize & _).
  destruct (Hk 1) as [H1 H1']. destruct (Hk 2) as [H2 _]. destruct (Hk (-1)) as [_ H3].
  rewrite H1, H1', H2, H3.
  split; [reflexivity|]. split; [reflexivity|]. split; [reflexivity|].
  split; [reflexivity | exact Hsize].
Defined.

(** X2 on the same image. *)
Lemma X2_witness :
  ∃ lm, createLayerMapping Demo.twinImage = Returned lm
        ∧ OrdinalByDiffId lm !! "sha256:a1" = Some 1
        ∧ DiffIdByOrdinal lm !! 1 = Some "sha256:a1".
Proof.
  eexists. split; [reflexivity|]. split; [reflexivity|].
  apply (proj1 (X2_hash_entries_come_from_layers Demo.twinImage _ _ _
                  eq_refl eq_refl eq_refl) "sha256:a1" 1).
  reflexivity.
Defined.

(** X3 on the same image: a diff id of no layer is a missing key. *)
Lemma X3_witness :
  ∃ lm, createLayerMapping Demo.twinImage = Returned lm
        ∧ ByDiffId lm !! "sha256:zz" = None
        ∧ is_Some (ByDiffId lm !! "sha256:a1").
Proof.
  eexists. split; [reflexivity|].
  destruct (X3_keys_are_the_layer_hashes Demo.twinImage _ _ _
              eq_refl eq_refl eq_refl) as (Hkeys & _ & _).
  split.
  - apply eq_None_not_Some. rewrite Hkeys.
    apply (bool_decide_unpack _). by vm_compute.
  - apply Hkeys. apply (bool_decide_unpack _). by vm_compute.
Defined.

(** X4 on the same image: the second of the two layers is recorded. *)
Lemma X4_witness :
  ∃ lm, createLayerMapping Demo.twinImage = Returned lm
        ∧ OrdinalByDiffId lm !! "sha256:a1" = Some 1
        ∧ ByDiffId lm !! "sha256:a1" = Some "sha256:d2".
Proof.
  eexists. split; [reflexivity|].
  apply (proj1 (X4_last_layer_wins Demo.twinImage _ _ _ 1 "sha256:a1" "sha256:d2"
                  eq_refl eq_refl eq_refl eq_refl eq_refl)).
  intros [|[|j']] Hj'; [lia|lia|]. by cbn.
Defined.

(** X5 on the image of two distinct layers. *)
Lemma X5_witness :
  ∃ lm, createLayerMapping Demo.image = Returned lm
        ∧ (∀ d g, ByDiffId lm !! d = Some g ↔ ByDigest lm !! g = Some d)
        ∧ ByDiffId lm !! "sha256:a2" = Some "sha256:d2".
Proof.
  eexists. split; [reflexivity|].
  assert (Hd : NoDup (usedDiffKeys
                        {| v1.Architecture := "amd64"; v1.OS := "linux";
                           v1.Variant := EmptyString;
                           v1.RootFS :=
                             {| v1.DiffIDs := [Demo.sha "a1"; Demo.sha "a2"] |} |}
                        {| v1.Config := Demo.layer "c0" 1469;
                           v1.Layers := [Demo.layer "d1" 10; Demo.layer "d2" 20] |})).
  { apply (bool_decide_unpack _). by vm_compute. }
  assert (Hg : NoDup (layerDigestKeys
                        {| v1.Config := Demo.layer "c0" 1469;
                           v1.Layers := [Demo.layer "d1" 10; Demo.layer "d2" 20] |})).
  { apply (bool_decide_unpack _). by vm_compute. }
  destruct (X5_ByDiffId_inverts_ByDigest Demo.image _ _ _ eq_refl eq_refl eq_refl Hd Hg)
    as [Hinv Hord].
  split; [exact Hinv|]. rewrite (Hord 1%nat "sha256:a2"); reflexivity.
Defined.

(** X6: a third diff id changes nothing for an image of two layers. *)
Lemma X6_witness :
  createLayerMapping Demo.longImage = createLayerMapping Demo.image.
Proof.
  exact (X6_only_a_prefix_of_the_diff_ids_is_read Demo.longImage Demo.image _ _ _
           eq_refl eq_refl eq_refl eq_refl eq_refl).
Defined.

(** X10 on a run whose second list cannot be normalized and whose name
    does not parse either: the normalization error is the one returned. *)
Lemma X10_witness :
  @indexImage _ (Demo.externals Demo.trivyUnresolved Demo.syftUnresolved None
                   Demo.failingQuery)
    Demo.image "Repo/Image" Demo.imagePath Demo.emptyWorld
  = (Returned (None, None,
               Some (Wrapf (ErrorString "unresolved layer reference")
                       "failed to normalize packagess: " "Repo/Image")),
     started Demo.imagePath Demo.emptyWorld).
Proof.
  exact (X10_second_normalization_failure_fails_the_run
           (X := Demo.externals Demo.trivyUnresolved Demo.syftUnresolved None
                   Demo.failingQuery)
           Demo.image "Repo/Image" Demo.imagePath Demo.emptyWorld _ _ _
           (λ s, emptyWorld_miss _ s) eq_refl eq_refl).
Defined.

(** The stale world holds nothing the JSON stand-in decodes. *)
Lemma staleWorld_miss s :
  ¬ CacheHit (X := Demo.cachingExternals) "/cache/img/sbom.json" Demo.staleWorld s.
Proof.
  intros (_ & b & Hfs & Hdec & _). cbn in Hfs.
  rewrite lookup_singleton_eq in Hfs. injection Hfs as <-. by vm_compute in Hdec.
Qed.

(** X12 on a world whose cache file holds other bytes: they are replaced. *)
Lemma X12_witness :
  fs (written "/cache/img/sbom.json" Demo.assembledBytes
        (started Demo.imagePath Demo.staleWorld))
  = <["/cache/img/sbom.json" := File Demo.assembledBytes]> (fs Demo.staleWorld).
Proof.
  refine (X12_fresh_document_overwrites_the_stored_one
            (X := Demo.cachingExternals)
            Demo.image "repo/image:latest" Demo.imagePath Demo.staleWorld
            Demo.assembledDoc (Some Demo.image) None
            (written "/cache/img/sbom.json" Demo.assembledBytes
               (started Demo.imagePath Demo.staleWorld))
            staleWorld_miss _).
  vm_compute. reflexivity.
Defined.

(** X13 on a world that holds a reusable document but disables the cache,
    against the empty world with the cache disabled. *)
Lemma X13_witness :
  (@indexImage _ Demo.storedExternals Demo.image "repo/image:latest" Demo.imagePath
     Demo.noCacheWorld).1
  = (@indexImage _ Demo.storedExternals Demo.image "repo/image:latest" Demo.imagePath
       (withLocked Demo.noCacheWorld {[ "/cache/img/sbom.json" ]})).1.
Proof.
  exact (proj2 (X13_disabled_cache_ignores_the_files (X := Demo.storedExternals)
                  Demo.image "repo/image:latest" Demo.imagePath
                  Demo.noCacheWorld
                  (withLocked Demo.noCacheWorld {[ "/cache/img/sbom.json" ]})
                  EmptyString EmptyString eq_refl eq_refl)).
Defined.

(** X14 on a tag reference. *)
Lemma X14_witness :
  types.Tags (types.Image (types.SbomSource Demo.assembledDoc)) = None
  ∨ ∃ ref, "repo/image:latest" ≠ EmptyString
           ∧ name.parse (λ _, true) "repo/image:latest" = inl ref
           ∧ String.prefix "sha256:" (Identifier ref) = false
           ∧ types.Tags (types.Image (types.SbomSource Demo.assembledDoc))
             = Some [Identifier ref].
Proof.
  refine (X14_tags_are_unset_or_one_tag
            (X := Demo.externals Demo.trivyFound Demo.syftFound None Demo.failingQuery)
            Demo.image "repo/image:latest" Demo.imagePath "/cache/img/sbom.json"
            Demo.emptyWorld Demo.assembledDoc (Some Demo.image) None
            (started Demo.imagePath Demo.emptyWorld) _).
  vm_compute. reflexivity.
Defined.

(** X15 on a run whose lookup answers. *)
Lemma X15_witness :
  ∃ sb im e0 cves qe,
    @IndexImage _ (Demo.externals Demo.trivyFound Demo.syftFound None Demo.answeringQuery)
      "repo/image:latest" Demo.emptyWorld
    = (Returned (sb, im, e0), started Demo.imagePath Demo.emptyWorld)
    ∧ Demo.answeringQuery sb EmptyString EmptyString EmptyString = Returned (cves, qe)
    ∧ qe = None
    ∧ cves = Some ["CVE-1"].
Proof.
  destruct (X15_what_a_delivered_record_holds
              (X := Demo.externals Demo.trivyFound Demo.syftFound None
                      Demo.answeringQuery)
              "repo/image:latest" Demo.emptyWorld
              {| Input := "repo/image:latest"; Image := Some Demo.image;
                 Sbom := Some (types.setVulnerabilities Demo.assembledDoc ["CVE-1"]);
                 Error := None |}
              (started Demo.imagePath Demo.emptyWorld))
    as (sb & im & e0 & cves & qe & Hrun & Hq & _ & _ & Hqe & _).
  { vm_compute. reflexivity. }
  exists sb, im, e0, cves, qe. split; [exact Hrun|]. split; [exact Hq|].
  cbn in Hqe. split; [by symmetry|].
  cbn in Hq. unfold Demo.answeringQuery in Hq. by injection Hq as <- _.
Defined.

(** X17 on an image that cannot be downloaded: the error is the wrapped
    error of the download. *)
Lemma X17_witness :
  ∃ img path e,
    @registry_SaveImage _
      (Demo.externals Demo.trivyFound Demo.syftFound None Demo.failingQuery)
      "missing:latest" Demo.emptyWorld
    = (Returned (img, path, Some e), Demo.emptyWorld)
    ∧ Wrap Demo.saveError "failed to download image"
      = Wrap e "failed to download image".
Proof.
  destruct (X17_errors_of_IndexImage
              (X := Demo.externals Demo.trivyFound Demo.syftFound None Demo.failingQuery)
              "missing:latest" Demo.emptyWorld None None
              (Wrap Demo.saveError "failed to download image") Demo.emptyWorld eq_refl)
    as [Hdl|(img & path & w1 & Hsave & _)].
  - exact Hdl.
  - exfalso. cbn in Hsave. discriminate Hsave.
Defined.

(** X18 on a name that does not parse. *)
Lemma X18_witness :
  ∃ e, name.parse (λ _, true) "Repo/Image" = inr e
       ∧ Wrapf (ErrorString "could not parse reference: Repo/Image")
           "failed to parse reference: " "Repo/Image"
         = Wrapf e "failed to parse reference: " "Repo/Image".
Proof.
  destruct (X18_errors_of_IndexPath
              (X := Demo.externals Demo.trivyFound Demo.syftFound None Demo.failingQuery)
              Demo.imagePath "Repo/Image" Demo.emptyWorld None None
              (Wrapf (ErrorString "could not parse reference: Repo/Image")
                 "failed to parse reference: " "Repo/Image")
              (started Demo.imagePath Demo.emptyWorld))
    as [(img & e & Hread & _)
       |(img & w1 & Hread & Hw
         & [(lm & ps & e & Hlm & Hs & He)|(e & _ & Hp & He)])].
  - vm_compute. reflexivity.
  - cbn in Hread. discriminate Hread.
  - exfalso. cbn in Hread. injection Hread as <- <-.
    injection Hlm as <-. cbn in Hs. discriminate Hs.
  - exists e. split; [exact Hp | exact He].
Defined.
